(** * The hover service of react-page (packages/core/src/service/hover)

    A shallow embedding of [service/hover/index.ts]: the zone matrices, the
    cell locator, the level resolver, the zone interpreters (callback table)
    and the memoising hover engine, followed by the properties the
    specification states about them.

    Numbers.  The source computes with JavaScript numbers.  They are
    modelled as exact rationals extended with [+Infinity], [-Infinity] and
    [NaN], so that division by zero, comparisons with [NaN] and indexing
    with a non-index behave as in the source.  Rounding of IEEE doubles is
    not modelled, and [-0] is identified with [0]; theorems whose statement
    would depend on the sign of a zero divisor exclude zero divisors by
    hypothesis.  The theorems about quotients (the cell locator, the level
    bands, the pointer relative to its cell) are stated through the order
    of the quantities and with a margin, so that they do not depend on
    which side of an integer or of a band boundary a rounded quotient
    falls; lemmas that do hold in exact arithmetic only say so. *)

From Stdlib Require Import ZArith QArith Qround Lia Lqa String List Bool.
From stdpp Require Import gmap strings list.

(* ================================================================== *)
(** ** JavaScript numbers *)
(* ================================================================== *)

Module JsNum.

Inductive num : Type :=
| Fin (q : Q)
| PInf
| NInf
| NaN.

Definition of_Z (z : Z) : num := Fin (inject_Z z).
Definition of_nat (n : nat) : num := of_Z (Z.of_nat n).

(** Sign of a number that is not [NaN]. *)
Definition signum (a : num) : comparison :=
  match a with
  | Fin q => (q ?= 0)%Q
  | PInf => Gt
  | NInf => Lt
  | NaN => Eq
  end.

Definition sign_mul (s t : comparison) : comparison :=
  match s, t with
  | Eq, _ | _, Eq => Eq
  | Gt, Gt | Lt, Lt => Gt
  | _, _ => Lt
  end.

(** The infinity of a given sign; a zero sign is the indeterminate form. *)
Definition inf_of_sign (s : comparison) : num :=
  match s with Gt => PInf | Lt => NInf | Eq => NaN end.

Definition opp (a : num) : num :=
  match a with
  | Fin q => Fin (Qred (- q))
  | PInf => NInf
  | NInf => PInf
  | NaN => NaN
  end.

Definition add (a b : num) : num :=
  match a, b with
  | NaN, _ | _, NaN => NaN
  | Fin p, Fin q => Fin (Qred (p + q))
  | PInf, NInf | NInf, PInf => NaN
  | PInf, _ | _, PInf => PInf
  | NInf, _ | _, NInf => NInf
  end.

Definition sub (a b : num) : num := add a (opp b).

Definition mul (a b : num) : num :=
  match a, b with
  | NaN, _ | _, NaN => NaN
  | Fin p, Fin q => Fin (Qred (p * q))
  | _, _ => inf_of_sign (sign_mul (signum a) (signum b))
  end.

(** [a / b].  A finite number over zero is the infinity of its sign
    ([0 / 0] is [NaN]); a finite number over an infinity is [0]. *)
Definition div (a b : num) : num :=
  match a, b with
  | NaN, _ | _, NaN => NaN
  | Fin p, Fin q =>
      if Qeq_bool q 0 then inf_of_sign (signum a) else Fin (Qred (p / q))
  | Fin _, _ => Fin 0
  | _, Fin q =>
      inf_of_sign (sign_mul (signum a) (if Qeq_bool q 0 then Gt else signum b))
  | _, _ => NaN
  end.

(** [Math.floor]. *)
Definition floor (a : num) : num :=
  match a with
  | Fin q => of_Z (Qfloor q)
  | _ => a
  end.

(** [Math.round]: to the nearest integer, halves towards [+Infinity]. *)
Definition round (a : num) : num :=
  match a with
  | Fin q => of_Z (Qfloor (q + (1 # 2)))
  | _ => a
  end.

(** Comparison; [None] when an operand is [NaN], for which every
    relational operator of the source answers [false]. *)
Definition cmp (a b : num) : option comparison :=
  match a, b with
  | NaN, _ | _, NaN => None
  | Fin p, Fin q => Some (p ?= q)%Q
  | PInf, PInf | NInf, NInf => Some Eq
  | PInf, _ | _, NInf => Some Gt
  | NInf, _ | _, PInf => Some Lt
  end.

Definition ltb (a b : num) : bool :=
  match cmp a b with Some Lt => true | _ => false end.
Definition leb (a b : num) : bool :=
  match cmp a b with Some Lt | Some Eq => true | _ => false end.
Definition gtb (a b : num) : bool :=
  match cmp a b with Some Gt => true | _ => false end.
Definition geb (a b : num) : bool :=
  match cmp a b with Some Gt | Some Eq => true | _ => false end.
(** [a === b] on numbers. *)
Definition eqb (a b : num) : bool :=
  match cmp a b with Some Eq => true | _ => false end.

(** The array index a number denotes, if any: [arr[n]] reads an element
    only when [n] is a non-negative integer. *)
Definition index (a : num) : option nat :=
  match a with
  | Fin q =>
      if Qeq_bool q (inject_Z (Qfloor q)) && (0 <=? Qfloor q)%Z
      then Some (Z.to_nat (Qfloor q)) else None
  | _ => None
  end.

(** Truthiness of a number: [0] and [NaN] are falsy. *)
Definition truthy (a : num) : bool :=
  match a with
  | Fin q => negb (Qeq_bool q 0)
  | NaN => false
  | _ => true
  end.

Definition is_fin (a : num) : Prop :=
  match a with Fin _ => True | _ => False end.

End JsNum.

Import JsNum.

Declare Scope num_scope.
Delimit Scope num_scope with num.
Bind Scope num_scope with num.
Notation "a + b" := (add a b) : num_scope.
Notation "a - b" := (sub a b) : num_scope.
Notation "a * b" := (mul a b) : num_scope.
Notation "a / b" := (div a b) : num_scope.
Notation "a <? b" := (ltb a b) : num_scope.
Notation "a <=? b" := (leb a b) : num_scope.
Notation "a >? b" := (gtb a b) : num_scope.
Notation "a >=? b" := (geb a b) : num_scope.

(** Integer literals in [num_scope]. *)
Definition num_of_literal (z : Z) : num := Fin (Qmake z 1).
Definition num_to_literal (a : num) : option Z :=
  match a with
  | Fin (Qmake z 1) => Some z
  | _ => None
  end.
Number Notation num num_of_literal num_to_literal : num_scope.

(** [arr[n]]: [None] is [undefined]. *)
Definition js_get {A : Type} (arr : list A) (n : num) : option A :=
  match index n with
  | Some i => arr !! i
  | None => None
  end.

(* ================================================================== *)
(** ** Level resolver *)
(* ================================================================== *)

(** The loop of [computeLevel], entered at iteration [i] with [fuel]
    iterations left ([i <= levels] holds exactly while [fuel] is not
    exhausted).  [steps] is the array of the source; a missing element
    reads as [undefined], which arithmetic turns into [NaN]. *)
Fixpoint level_loop (levels position : num) (fuel i : nat)
    (steps : list num) (current : num) : num :=
  match fuel with
  | O => levels
  | S fuel' =>
      let steps' := steps ++ [(default NaN (steps !! i) + current / 2)%num] in
      let current' := (current / 2)%num in
      if (position >=? default NaN (steps' !! i) + of_nat i * 2)%num
         && (position <? default NaN (steps' !! S i) + of_nat (S i) * 2)%num
      then of_nat i
      else level_loop levels position fuel' (S i) steps' current'
  end.

(** [computeLevel({ size, levels, position })].  [levels] is an integer
    (a node's nesting limit), so the loop runs [levels + 1] times, or not
    at all when [levels] is negative. *)
Definition computeLevel (size : num) (levels : Z) (position : num) : num :=
  if (size <=? (of_Z levels + 1) * 2)%num
  then round (position / (size / of_Z levels))%num
  else
    let spare := (size - (of_Z levels + 1) * 2)%num in
    level_loop (of_Z levels)%num position (Z.to_nat (levels + 1)) 0
      [0%num] spare.

(* ================================================================== *)
(** ** Data model *)
(* ================================================================== *)

Record Vector := { vec_x : num; vec_y : num }.
Record Room := { width : num; height : num }.
Record MatrixIndex := { cell : num; row : num }.

(** A zone matrix: rows of zone-class codes. *)
Abbreviation Matrix := (list (list Z)).

Inductive Side := SideLeft | SideRight.

Record Levels := {
  levels_above : Z;
  levels_below : Z;
  levels_left : Z;
  levels_right : Z
}.

Record PluginConfig := { isInlineable : option bool }.
Record Content := { plugin : option PluginConfig }.

(** Modelled from the spec: the declaration of [Node] and the predicate
    [isRow] ([types/editable]) are not among the sources.  The spec gives a
    node an identity, a kind discriminator (row or cell), an inline marker
    (none, left or right), the id of an inline neighbour if any, the
    per-direction nesting limits (integers) and the plugin capability
    [isInlineable]; the fields below are the ones the hover service reads,
    optional where the source guards against their absence. *)
Record Node := {
  node_id : string;
  isRow : bool;
  inline : option Side;
  hasInlineNeighbour : option string;
  levels : Levels;
  content : option Content
}.

(** One call on the action-dispatch object, with its arguments. *)
Inductive Action :=
| Clear
| Above (item hover : Node) (level : num)
| Below (item hover : Node) (level : num)
| LeftOf (item hover : Node) (level : num)
| RightOf (item hover : Node) (level : num)
| InlineLeft (item hover : Node)
| InlineRight (item hover : Node).

(** The action-dispatch object itself enters the computation only as a
    component of the memo key, where it is compared deeply.  It is
    represented by a token: objects that the deep comparison takes as equal
    carry the same token.  No statement below relies on two tokens being
    different. *)
Definition Callbacks := nat.

Record GridSize := { rows : nat; cells : nat }.

Record Context := {
  ctx_room : Room;
  ctx_mouse : Vector;
  ctx_position : MatrixIndex;
  ctx_size : GridSize;
  ctx_scale : Vector
}.

(** A zone interpreter.  Its value is the sequence of calls it makes on
    the action-dispatch object, in order. *)
Abbreviation Callback := (Node -> Node -> Context -> list Action).

(** The key [all] that [computeHover] stores in [last]. *)
Record Memo := {
  memo_item : string;
  memo_hover : string;
  memo_actions : Callbacks;
  memo_ctx : Context
}.

(** The structured data handed to [logger.error]. *)
Record Diagnostic := {
  diag_room : Room;
  diag_mouse : Vector;
  diag_matrix : Matrix;
  diag_scale : Vector;
  diag_hoverCell : MatrixIndex;
  diag_rows : nat;
  diag_cells : nat
}.

(* ================================================================== *)
(** ** Zone classes and matrices *)
(* ================================================================== *)

Module classes.
Definition NO : Z := 0.
Definition C1 : Z := 10.
Definition C2 : Z := 11.
Definition C3 : Z := 12.
Definition C4 : Z := 13.
Definition AH : Z := 200.
Definition AA : Z := 201.
Definition BH : Z := 210.
Definition BA : Z := 211.
Definition LH : Z := 220.
Definition LA : Z := 221.
Definition RH : Z := 230.
Definition RA : Z := 231.
Definition IL : Z := 300.
Definition IR : Z := 301.
End classes.

Module c := classes.

Definition matrix_6x6 : Matrix := [
  [c.C1; c.AA; c.AA; c.AA; c.AA; c.C2];
  [c.LA; c.IL; c.AH; c.AH; c.IR; c.RA];
  [c.LA; c.LH; c.NO; c.NO; c.RH; c.RA];
  [c.LA; c.LH; c.NO; c.NO; c.RH; c.RA];
  [c.LA; c.C4; c.BH; c.BH; c.C3; c.RA];
  [c.C4; c.BA; c.BA; c.BA; c.BA; c.C3]
].

Definition matrix_10x10 : Matrix := [
  [c.C1; c.AA; c.AA; c.AA; c.AA; c.AA; c.AA; c.AA; c.AA; c.C2];
  [c.LA; c.IL; c.IL; c.IL; c.AH; c.AH; c.IR; c.IR; c.IR; c.RA];
  [c.LA; c.IL; c.IL; c.IL; c.AH; c.AH; c.IR; c.IR; c.IR; c.RA];
  [c.LA; c.IL; c.IL; c.IL; c.AH; c.AH; c.IR; c.IR; c.IR; c.RA];
  [c.LA; c.LH; c.LH; c.LH; c.C1; c.C2; c.RH; c.RH; c.RH; c.RA];
  [c.LA; c.LH; c.LH; c.LH; c.C4; c.C3; c.RH; c.RH; c.RH; c.RA];
  [c.LA; c.LH; c.LH; c.C4; c.BH; c.BH; c.C3; c.IR; c.RH; c.RA];
  [c.LA; c.LH; c.C4; c.BH; c.BH; c.BH; c.BH; c.C3; c.RH; c.RA];
  [c.LA; c.C4; c.BH; c.BH; c.BH; c.BH; c.BH; c.BH; c.C3; c.RA];
  [c.C4; c.BA; c.BA; c.BA; c.BA; c.BA; c.BA; c.BA; c.BA; c.C3]
].

Definition matrix_10x10_no_inline : Matrix := [
  [c.C1; c.AA; c.AA; c.AA; c.AA; c.AA; c.AA; c.AA; c.AA; c.C2];
  [c.LA; c.C1; c.AH; c.AH; c.AH; c.AH; c.AH; c.AH; c.C2; c.RA];
  [c.LA; c.LH; c.C1; c.AH; c.AH; c.AH; c.AH; c.C2; c.RH; c.RA];
  [c.LA; c.LH; c.LH; c.C1; c.AH; c.AH; c.C2; c.RH; c.RH; c.RA];
  [c.LA; c.LH; c.LH; c.LH; c.C1; c.C2; c.RH; c.RH; c.RH; c.RA];
  [c.LA; c.LH; c.LH; c.LH; c.C4; c.C3; c.RH; c.RH; c.RH; c.RA];
  [c.LA; c.LH; c.LH; c.C4; c.BH; c.BH; c.C3; c.RH; c.RH; c.RA];
  [c.LA; c.LH; c.C4; c.BH; c.BH; c.BH; c.BH; c.C3; c.RH; c.RA];
  [c.LA; c.C4; c.BH; c.BH; c.BH; c.BH; c.BH; c.BH; c.C3; c.RA];
  [c.C4; c.BA; c.BA; c.BA; c.BA; c.BA; c.BA; c.BA; c.BA; c.C3]
].

Definition defaultMatrices : gmap string Matrix :=
  list_to_map [
    ("6x6"%string, matrix_6x6);
    ("10x10"%string, matrix_10x10);
    ("10x10-no-inline"%string, matrix_10x10_no_inline)
  ].

(* ================================================================== *)
(** ** Scale calculator and cell locator *)
(* ================================================================== *)

(** [getRoomScale({ room, matrix })].  [None] is the [TypeError] raised by
    [matrix[0].length] when the matrix has no row. *)
Definition getRoomScale (room : Room) (matrix : Matrix) : option Vector :=
  let rows := length matrix in
  match matrix !! 0%nat with
  | None => None
  | Some row0 =>
      let cells := length row0 in
      let scalingX := (width room / of_nat cells)%num in
      let scalingY := (height room / of_nat rows)%num in
      Some {| vec_x := scalingX; vec_y := scalingY |}
  end.

(** [getMouseHoverCell({ mouse, scale })]. *)
Definition getMouseHoverCell (mouse scale : Vector) : MatrixIndex :=
  {| cell := floor (vec_x mouse / vec_x scale)%num;
     row := floor (vec_y mouse / vec_y scale)%num |}.

(** [relativeMousePosition({ mouse, position, scale })]. *)
Definition relativeMousePosition (mouse : Vector) (position : MatrixIndex)
    (scale : Vector) : Vector :=
  {| vec_x := round (vec_x mouse - cell position * vec_x scale)%num;
     vec_y := round (vec_y mouse - row position * vec_y scale)%num |}.

(* ================================================================== *)
(** ** Axis wrappers of the level resolver *)
(* ================================================================== *)

Definition is_inline (n : Node) : bool :=
  match inline n with Some _ => true | None => false end.

(** [computeHorizontal({ mouse, position, hover, scale, level }, inv)]. *)
Definition computeHorizontal (mouse : Vector) (position : MatrixIndex)
    (hover : Node) (scale : Vector) (level : Z) (inv : bool) : num :=
  let x := vec_x (relativeMousePosition mouse position scale) in
  let at_ := computeLevel (vec_x scale) level x in
  if isRow hover then (of_Z level)%num
  else
    let at_ := if is_inline hover && eqb at_ 0%num then 1%num else at_ in
    if inv then (of_Z level - at_)%num else at_.

(** [computeVertical({ level, mouse, hover, position, scale }, inv)]. *)
Definition computeVertical (level : Z) (mouse : Vector) (hover : Node)
    (position : MatrixIndex) (scale : Vector) (inv : bool) : num :=
  let y := vec_y (relativeMousePosition mouse position scale) in
  let at_ := computeLevel (vec_y scale) level y in
  if isRow hover then (of_Z level)%num
  else
    let at_ := if is_inline hover && eqb at_ 0%num then 1%num else at_ in
    if inv then (of_Z level - at_)%num else at_.

Definition getDropLevel (hover : Node) : num :=
  if negb (isRow hover) && is_inline hover then 1%num else 0%num.

(* ================================================================== *)
(** ** Zone interpreters *)
(* ================================================================== *)

(** [isInlineable] as the interpreters destructure it from the dragged
    node: [false] when the content, its plugin or the flag is absent. *)
Definition item_isInlineable (item : Node) : bool :=
  match content item with
  | None => false
  | Some ct =>
      match plugin ct with
      | None => false
      | Some p => default false (isInlineable p)
      end
  end.

(** Truthiness of an optional string: [undefined] and the empty string
    are falsy. *)
Definition truthy_string (s : option string) : bool :=
  match s with
  | Some EmptyString | None => false
  | Some _ => true
  end.

(** [hasInlineNeighbour === id]. *)
Definition neighbour_is (s : option string) (id : string) : bool :=
  match s with
  | Some n => String.eqb n id
  | None => false
  end.

Definition side_eqb (a b : Side) : bool :=
  match a, b with
  | SideLeft, SideLeft | SideRight, SideRight => true
  | _, _ => false
  end.

(** [item.inline === 'left'] (or ['right']). *)
Definition inline_is (n : Node) (s : Side) : bool :=
  match inline n with
  | Some t => side_eqb t s
  | None => false
  end.

Definition relative (ctx : Context) : Vector :=
  relativeMousePosition (ctx_mouse ctx) (ctx_position ctx) (ctx_scale ctx).

Definition on_NO : Callback := fun item hover ctx => [Clear].

Definition on_C1 : Callback := fun item hover ctx =>
  let mouse := relative ctx in
  let level := getDropLevel hover in
  if (vec_x mouse <? vec_y mouse)%num then [LeftOf item hover level]
  else [Above item hover level].

Definition on_C2 : Callback := fun item hover ctx =>
  let mouse := relative ctx in
  let level := getDropLevel hover in
  if (vec_x mouse >? vec_y mouse)%num then [RightOf item hover level]
  else [Above item hover level].

Definition on_C3 : Callback := fun item hover ctx =>
  let mouse := relative ctx in
  let level := getDropLevel hover in
  if (vec_x mouse >? vec_y mouse)%num then [RightOf item hover level]
  else [Below item hover level].

Definition on_C4 : Callback := fun item hover ctx =>
  let mouse := relative ctx in
  let level := getDropLevel hover in
  if (vec_x mouse <? vec_y mouse)%num then [LeftOf item hover level]
  else [Below item hover level].

Definition on_AH : Callback := fun item hover ctx =>
  [Above item hover (getDropLevel hover)].
Definition on_BH : Callback := fun item hover ctx =>
  [Below item hover (getDropLevel hover)].
Definition on_LH : Callback := fun item hover ctx =>
  [LeftOf item hover (getDropLevel hover)].
Definition on_RH : Callback := fun item hover ctx =>
  [RightOf item hover (getDropLevel hover)].

Definition on_AA : Callback := fun item hover ctx =>
  [Above item hover
     (computeVertical (levels_above (levels hover)) (ctx_mouse ctx) hover
        (ctx_position ctx) (ctx_scale ctx) true)].

Definition on_BA : Callback := fun item hover ctx =>
  [Below item hover
     (computeVertical (levels_below (levels hover)) (ctx_mouse ctx) hover
        (ctx_position ctx) (ctx_scale ctx) false)].

Definition on_LA : Callback := fun item hover ctx =>
  [LeftOf item hover
     (computeHorizontal (ctx_mouse ctx) (ctx_position ctx) hover
        (ctx_scale ctx) (levels_left (levels hover)) true)].

Definition on_RA : Callback := fun item hover ctx =>
  [RightOf item hover
     (computeHorizontal (ctx_mouse ctx) (ctx_position ctx) hover
        (ctx_scale ctx) (levels_right (levels hover)) false)].

Definition on_IL : Callback := fun item hover ctx =>
  if isRow item || isRow hover then []
  else
    let hasNeighbour := truthy_string (hasInlineNeighbour hover) in
    let same := neighbour_is (hasInlineNeighbour hover) (node_id item) in
    if is_inline hover || negb (item_isInlineable item)
    then [LeftOf item hover 2%num]
    else if hasNeighbour && negb same
    then [LeftOf item hover 2%num]
    else if hasNeighbour && same && inline_is item SideLeft
    then [LeftOf item hover 2%num]
    else [InlineLeft item hover].

Definition on_IR : Callback := fun item hover ctx =>
  if isRow item || isRow hover then []
  else
    let hasNeighbour := truthy_string (hasInlineNeighbour hover) in
    let same := neighbour_is (hasInlineNeighbour hover) (node_id item) in
    if is_inline hover || negb (item_isInlineable item)
    then [RightOf item hover 2%num]
    else if hasNeighbour && negb same
    then [RightOf item hover 2%num]
    else if hasNeighbour && same && inline_is item SideRight
    then [RightOf item hover 2%num]
    else [InlineRight item hover].

Definition callback_table : list (Z * Callback) := [
  (c.NO, on_NO);
  (c.C1, on_C1); (c.C2, on_C2); (c.C3, on_C3); (c.C4, on_C4);
  (c.AH, on_AH); (c.BH, on_BH); (c.LH, on_LH); (c.RH, on_RH);
  (c.AA, on_AA); (c.BA, on_BA); (c.LA, on_LA); (c.RA, on_RA);
  (c.IL, on_IL); (c.IR, on_IR)
].

Definition defaultCallbacks : gmap Z Callback := list_to_map callback_table.

(* ================================================================== *)
(** ** Hover engine *)
(* ================================================================== *)

Definition vector_eqb (a b : Vector) : bool :=
  eqb (vec_x a) (vec_x b) && eqb (vec_y a) (vec_y b).

Definition context_eqb (a b : Context) : bool :=
  eqb (width (ctx_room a)) (width (ctx_room b))
  && eqb (height (ctx_room a)) (height (ctx_room b))
  && vector_eqb (ctx_mouse a) (ctx_mouse b)
  && eqb (cell (ctx_position a)) (cell (ctx_position b))
  && eqb (row (ctx_position a)) (row (ctx_position b))
  && Nat.eqb (rows (ctx_size a)) (rows (ctx_size b))
  && Nat.eqb (cells (ctx_size a)) (cells (ctx_size b))
  && vector_eqb (ctx_scale a) (ctx_scale b).

(** Modelled from the spec: [utils/deepEquals] is not among the sources.
    The spec calls it deep structural equality: two keys are equal when
    all their components are, nothing ([null], [undefined]) equals a key,
    and the action-dispatch objects are equal when their tokens are (see
    [Callbacks]).  Numbers are
    compared as [===] compares them, so a [NaN] differs from itself; no
    key that reaches the comparison holds one (see
    [reached_key_has_no_NaN] below). *)
Definition deepEquals (a : Memo) (b : option Memo) : bool :=
  match b with
  | None => false
  | Some b =>
      String.eqb (memo_item a) (memo_item b)
      && String.eqb (memo_hover a) (memo_hover b)
      && Nat.eqb (memo_actions a) (memo_actions b)
      && context_eqb (memo_ctx a) (memo_ctx b)
  end.

(** Which statement ended a call of [computeHover]: the [TypeError] of
    reading a property of [undefined], the [return] after [logger.error],
    the [return] on a memo hit, or the call of the zone interpreter. *)
Inductive Outcome := TypeError | Missed | Suppressed | Invoked.

(** What a call of [computeHover] did: the calls made on the
    action-dispatch object, the diagnostics logged, and the memo store
    [last] as the call leaves it. *)
Record HoverResult := {
  outcome : Outcome;
  dispatched : list Action;
  logged : list Diagnostic;
  memo : gmap string Memo
}.

(** One of the two [if ... else if ...] statements that clamp the located
    cell, on one coordinate [i] against the matrix dimension [n]. *)
Definition clamp (i : num) (n : nat) : num :=
  if (i >=? of_nat n)%num then (of_nat n - 1)%num
  else if (i <? 0)%num then 0%num
  else i.

(** The cell [computeHover] indexes the matrix with: the located cell
    after the two clamping statements. *)
Definition clampedCell (mouse scale : Vector) (rows cells : nat) : MatrixIndex :=
  let hoverCell := getMouseHoverCell mouse scale in
  {| cell := clamp (cell hoverCell) cells;
     row := clamp (row hoverCell) rows |}.

(** [computeHover(drag, hover, actions, { room, mouse, matrix, callbacks }, m)],
    run against the memo store [last] (a module-level object of the
    source; a name it does not hold reads as [undefined]). *)
Definition computeHover (last : gmap string Memo) (drag hover : Node)
    (actions : Callbacks) (room : Room) (mouse : Vector)
    (matrix : Matrix) (callbacks : gmap Z Callback) (m : string)
    : HoverResult :=
  let threw :=
    {| outcome := TypeError; dispatched := []; logged := []; memo := last |} in
  match getRoomScale room matrix with
  | None => threw
  | Some scale =>
      let rows := length matrix in
      let cells := length (default [] (matrix !! 0%nat)) in
      let hoverCell := clampedCell mouse scale rows cells in
      match js_get matrix (row hoverCell) with
      | None => threw
      | Some line =>
          let code := js_get line (cell hoverCell) in
          match
            match code with
            | Some code => callbacks !! code
            | None => None
            end
          with
          | None =>
              {| outcome := Missed;
                 dispatched := [];
                 logged := [ {| diag_room := room; diag_mouse := mouse;
                                diag_matrix := matrix; diag_scale := scale;
                                diag_hoverCell := hoverCell;
                                diag_rows := rows; diag_cells := cells |} ];
                 memo := last |}
          | Some callback =>
              let ctx :=
                {| ctx_room := room; ctx_mouse := mouse;
                   ctx_position := hoverCell;
                   ctx_size := {| rows := rows; cells := cells |};
                   ctx_scale := scale |} in
              let all :=
                {| memo_item := node_id drag; memo_hover := node_id hover;
                   memo_actions := actions; memo_ctx := ctx |} in
              if deepEquals all (last !! m)
              then {| outcome := Suppressed; dispatched := [];
                      logged := []; memo := last |}
              else {| outcome := Invoked;
                      dispatched := callback drag hover ctx;
                      logged := [];
                      memo := <[m := all]> last |}
          end
      end
  end.

Record HoverService := {
  callbacks : gmap Z Callback;
  matrices : gmap string Matrix
}.

(** [new HoverService({ matrices, callbacks })]. *)
Definition newHoverService (ms : option (gmap string Matrix))
    (cbs : option (gmap Z Callback)) : HoverService :=
  {| callbacks := default defaultCallbacks cbs;
     matrices := default defaultMatrices ms |}.

(** [service.hover(drag, hover, actions, { room, mouse, matrix })].  An
    unknown matrix name makes [computeHover] read [length] of
    [undefined], a [TypeError]. *)
Definition service_hover (svc : HoverService) (last : gmap string Memo)
    (drag hover : Node) (actions : Callbacks) (room : Room) (mouse : Vector)
    (matrix : option string) : HoverResult :=
  let use := default "10x10"%string matrix in
  match matrices svc !! use with
  | None =>
      {| outcome := TypeError; dispatched := []; logged := []; memo := last |}
  | Some mx =>
      computeHover last drag hover actions room mouse mx (callbacks svc) use
  end.

(** The memo store when the module is loaded: both named slots hold
    [null], which no key equals. *)
Definition last0 : gmap string Memo := ∅.

(* ================================================================== *)
(** ** Definitions used by the statements *)
(* ================================================================== *)

(** [a] is the integer [z]. *)
Definition val_int (a : num) (z : Z) : Prop :=
  exists q, a = Fin q /\ (q == inject_Z z)%Q.

(** None of the numbers of a context is [NaN]. *)
Definition no_NaN (ctx : Context) : Prop :=
  width (ctx_room ctx) <> NaN /\ height (ctx_room ctx) <> NaN
  /\ vec_x (ctx_mouse ctx) <> NaN /\ vec_y (ctx_mouse ctx) <> NaN
  /\ cell (ctx_position ctx) <> NaN /\ row (ctx_position ctx) <> NaN
  /\ vec_x (ctx_scale ctx) <> NaN /\ vec_y (ctx_scale ctx) <> NaN.

(** The two inline zones, by the side they merge on. *)
Definition opposite (s : Side) : Side :=
  match s with SideLeft => SideRight | SideRight => SideLeft end.

Definition directional (zone : Side) (item hover : Node) : Action :=
  match zone with
  | SideLeft => LeftOf item hover 2%num
  | SideRight => RightOf item hover 2%num
  end.

Definition merging (zone : Side) (item hover : Node) : Action :=
  match zone with
  | SideLeft => InlineLeft item hover
  | SideRight => InlineRight item hover
  end.

Definition inline_callback (zone : Side) : Callback :=
  match zone with SideLeft => on_IL | SideRight => on_IR end.

Definition inline_code (zone : Side) : Z :=
  match zone with SideLeft => c.IL | SideRight => c.IR end.

(** The disqualifiers of an inline merge, as the interpreters test them;
    [marker] is the inline marker of the dragged node that rules the
    merge out when the dragged node is the hovered node's neighbour. *)
Definition disqualified (marker : Side) (item hover : Node) : Prop :=
  is_inline hover = true
  \/ item_isInlineable item = false
  \/ (truthy_string (hasInlineNeighbour hover) = true
      /\ neighbour_is (hasInlineNeighbour hover) (node_id item) = false)
  \/ (truthy_string (hasInlineNeighbour hover) = true
      /\ neighbour_is (hasInlineNeighbour hover) (node_id item) = true
      /\ inline item = Some marker).

(** The inline zones as C8 words them: the last disqualifier is the
    dragged node being the neighbour "on the opposite side", read as the
    dragged node carrying the inline marker opposite to the zone. *)
Definition inline_zone_as_claimed (zone : Side) (item hover : Node)
    : list Action :=
  if isRow item || isRow hover then []
  else if is_inline hover
          || negb (item_isInlineable item)
          || truthy_string (hasInlineNeighbour hover)
             && negb (neighbour_is (hasInlineNeighbour hover) (node_id item))
          || truthy_string (hasInlineNeighbour hover)
             && neighbour_is (hasInlineNeighbour hover) (node_id item)
             && inline_is item (opposite zone)
  then [directional zone item hover]
  else [merging zone item hover].

(** Sample nodes and a sample context. *)
Definition example_levels : Levels :=
  {| levels_above := 3; levels_below := 3; levels_left := 3; levels_right := 3 |}.

Definition example_row (id : string) : Node :=
  {| node_id := id; isRow := true; inline := None; hasInlineNeighbour := None;
     levels := example_levels; content := None |}.

Definition example_cell (id : string) : Node :=
  {| node_id := id; isRow := false; inline := None; hasInlineNeighbour := None;
     levels := example_levels; content := None |}.

Definition example_context (mx my : Z) : Context :=
  {| ctx_room := {| width := 100%num; height := 100%num |};
     ctx_mouse := {| vec_x := of_Z mx; vec_y := of_Z my |};
     ctx_position := {| cell := 0%num; row := 0%num |};
     ctx_size := {| rows := 10; cells := 10 |};
     ctx_scale := {| vec_x := 10%num; vec_y := 10%num |} |}.

Definition inlineable_content : option Content :=
  Some {| plugin := Some {| isInlineable := Some true |} |}.

(** The hovered node of the spec's inline-fallback example: inline
    ['left'], without inline neighbour. *)
Definition example_inline_cell (id : string) : Node :=
  {| node_id := id; isRow := false; inline := Some SideLeft;
     hasInlineNeighbour := None; levels := example_levels; content := None |}.

(** The part of [computeHover] that does not read the memo store: the
    context and the interpreter of a call that gets as far as building its
    key, [None] for a call that ends on a [TypeError] or on a miss. *)
Definition classify (room : Room) (mouse : Vector) (matrix : Matrix)
    (callbacks : gmap Z Callback) : option (Context * Callback) :=
  match getRoomScale room matrix with
  | None => None
  | Some scale =>
      let rows := length matrix in
      let cells := length (default [] (matrix !! 0%nat)) in
      let hoverCell := clampedCell mouse scale rows cells in
      match js_get matrix (row hoverCell) with
      | None => None
      | Some line =>
          match js_get line (cell hoverCell) with
          | None => None
          | Some code =>
              match callbacks !! code with
              | None => None
              | Some callback =>
                  Some ({| ctx_room := room; ctx_mouse := mouse;
                           ctx_position := hoverCell;
                           ctx_size := {| rows := rows; cells := cells |};
                           ctx_scale := scale |}, callback)
              end
          end
      end
  end.

(** The key of a call, from its context. *)
Definition key_of (drag hover : Node) (actions : Callbacks) (ctx : Context)
    : Memo :=
  {| memo_item := node_id drag; memo_hover := node_id hover;
     memo_actions := actions; memo_ctx := ctx |}.

(** Every code of the matrix has an interpreter in the table. *)
Definition registered (callbacks : gmap Z Callback) (matrix : Matrix) : bool :=
  forallb (forallb (fun code =>
    match callbacks !! code with Some _ => true | None => false end)) matrix.

(** Every row of the matrix has [n] cells. *)
Definition rectangular (matrix : Matrix) (n : nat) : bool :=
  forallb (fun line => Nat.eqb (length line) n) matrix.

Definition is_inline_action (a : Action) : bool :=
  match a with
  | InlineLeft _ _ | InlineRight _ _ => true
  | _ => false
  end.

(** The action is [clear()] or carries the given nodes, in this order. *)
Definition carries (item hover : Node) (a : Action) : Prop :=
  match a with
  | Clear => True
  | Above i h _ | Below i h _ | LeftOf i h _ | RightOf i h _
  | InlineLeft i h | InlineRight i h => i = item /\ h = hover
  end.

(** The matrix has a cell of zone [IL] or [IR]. *)
Definition has_inline_zone (matrix : Matrix) : bool :=
  existsb (existsb (fun code => (code =? c.IL)%Z || (code =? c.IR)%Z)) matrix.

Definition is_corner (code : Z) : bool :=
  (code =? c.C1)%Z || (code =? c.C2)%Z || (code =? c.C3)%Z || (code =? c.C4)%Z.

(** Start of band [i] of the geometric regime: the sum of the first [i]
    halvings of [spare], plus the margin [2 * i]. *)
Definition band_start (spare : Q) (i : nat) : Q :=
  (spare - spare / inject_Z (2 ^ Z.of_nat i) + inject_Z (2 * Z.of_nat i))%Q.

(* ================================================================== *)
(** ** Order and finiteness of numbers *)
(* ================================================================== *)

Section NumOrder.

Implicit Types a b d : num.

Lemma cmp_of_Z (z w : Z) : cmp (of_Z z)%num (of_Z w)%num = Some (z ?= w)%Z.
Proof.
  unfold of_Z, cmp, Qcompare, inject_Z; simpl.
  now rewrite !Z.mul_1_r.
Qed.

Lemma leb_of_Z (z w : Z) : ((of_Z z <=? of_Z w)%num = true) <-> (z <= w)%Z.
Proof.
  unfold leb. rewrite cmp_of_Z.
  destruct (Z.compare_spec z w); split; intros; try lia; congruence.
Qed.

Lemma cmp_not_NaN a b : cmp a b <> None <-> a <> NaN /\ b <> NaN.
Proof. destruct a, b; simpl; split; intros; intuition congruence. Qed.

Lemma leb_trans a b d :
  (a <=? b)%num = true -> (b <=? d)%num = true -> (a <=? d)%num = true.
Proof.
  unfold leb.
  destruct a as [p| | |], b as [q| | |], d as [r| | |]; simpl; try congruence.
  destruct (Qcompare_spec p q), (Qcompare_spec q r), (Qcompare_spec p r);
    try congruence; intros _ _; exfalso; lra.
Qed.

Lemma geb_leb a b : (a >=? b)%num = (b <=? a)%num.
Proof.
  unfold geb, leb.
  destruct a as [p| | |], b as [q| | |]; simpl; try reflexivity.
  rewrite <- (Qcompare_antisym p q).
  now destruct (p ?= q)%Q.
Qed.

Lemma ltb_false_geb a b :
  a <> NaN -> b <> NaN -> (a <? b)%num = false -> (a >=? b)%num = true.
Proof.
  unfold ltb, geb.
  destruct a as [p| | |], b as [q| | |]; simpl; try congruence.
  now destruct (p ?= q)%Q.
Qed.

Lemma leb_ltb_trans a b d :
  (a <=? b)%num = true -> (b <? d)%num = true -> (a <? d)%num = true.
Proof.
  unfold leb, ltb.
  destruct a as [p| | |], b as [q| | |], d as [r| | |]; simpl; try congruence.
  destruct (Qcompare_spec p q), (Qcompare_spec q r), (Qcompare_spec p r);
    try congruence; intros _ _; exfalso; lra.
Qed.

Lemma leb_refl a : a <> NaN -> (a <=? a)%num = true.
Proof.
  unfold leb. destruct a as [p| | |]; simpl; try congruence.
  intros _. destruct (Qcompare_spec p p); try reflexivity; exfalso; lra.
Qed.

Lemma ltb_fin (p q : Q) : (Fin p <? Fin q)%num = true <-> (p < q)%Q.
Proof.
  unfold ltb; simpl. destruct (Qcompare_spec p q); split; intros;
    try reflexivity; try discriminate; try lra.
Qed.

Lemma leb_fin (p q : Q) : (Fin p <=? Fin q)%num = true <-> (p <= q)%Q.
Proof.
  unfold leb; simpl. destruct (Qcompare_spec p q); split; intros;
    try reflexivity; try discriminate; try lra.
Qed.

Lemma leb_not_NaN a b : (a <=? b)%num = true -> a <> NaN /\ b <> NaN.
Proof. unfold leb. destruct a, b; simpl; intuition congruence. Qed.

Lemma is_fin_not_NaN a : is_fin a -> a <> NaN.
Proof. destruct a; simpl; intuition congruence. Qed.

Lemma is_fin_add a b : is_fin a -> is_fin b -> is_fin (a + b)%num.
Proof. destruct a, b; simpl; tauto. Qed.

Lemma is_fin_mul a b : is_fin a -> is_fin b -> is_fin (a * b)%num.
Proof. destruct a, b; simpl; tauto. Qed.

Lemma is_fin_sub a b : is_fin a -> is_fin b -> is_fin (a - b)%num.
Proof. destruct a, b; simpl; tauto. Qed.

Lemma is_fin_half a : is_fin a -> is_fin (a / 2)%num.
Proof. destruct a; simpl; tauto. Qed.

Lemma is_fin_Fin (q : Q) : is_fin (Fin q).
Proof. exact I. Qed.

Lemma is_fin_of_Z (z : Z) : is_fin (of_Z z)%num.
Proof. exact I. Qed.

Lemma is_fin_of_nat (n : nat) : is_fin (of_nat n).
Proof. exact I. Qed.

End NumOrder.

Create HintDb num.
#[local] Hint Resolve is_fin_add is_fin_mul is_fin_sub is_fin_half
  is_fin_Fin is_fin_of_Z is_fin_of_nat is_fin_not_NaN : num.

(* ================================================================== *)
(** ** The level resolver: range and monotonicity *)
(* ================================================================== *)

Section LevelLoop.

Variables (lv position : num).

(** One iteration, once the array is known to end at index [i]. *)
Lemma level_loop_step fuel i steps current s :
  steps !! i = Some s ->
  length steps = S i ->
  level_loop lv position (S fuel) i steps current =
    if (position >=? s + of_nat i * 2)%num
       && (position <? (s + current / 2) + of_nat (S i) * 2)%num
    then of_nat i
    else level_loop lv position fuel (S i)
           (steps ++ [(s + current / 2)%num]) (current / 2)%num.
Proof.
  intros Hs Hlen. cbn [level_loop].
  rewrite Hs. cbn [default].
  rewrite lookup_app_l by lia. rewrite Hs. cbn [default].
  rewrite (list_lookup_middle steps [] _ (S i)) by lia.
  reflexivity.
Qed.

(** The loop answers the index of one of its iterations, or [levels]. *)
Lemma level_loop_range fuel : forall i steps current,
  level_loop lv position fuel i steps current = lv
  \/ exists j, (i <= j < i + fuel)%nat
       /\ level_loop lv position fuel i steps current = of_nat j.
Proof.
  induction fuel as [|fuel IH]; intros i steps current.
  - now left.
  - cbn [level_loop].
    match goal with |- context [if ?b then _ else _] => destruct b end.
    + right. exists i. split; [lia | reflexivity].
    + destruct (IH (S i) (steps ++ [(default NaN (steps !! i) + current / 2)%num])
                  (current / 2)%num) as [-> | (j & Hj & ->)].
      * now left.
      * right. exists j. split; [lia | reflexivity].
Qed.

End LevelLoop.

(** The loop is monotone in the position, from any iteration on, for two
    positions that both lie at or beyond the start of the current band. *)
Lemma level_loop_mono (L : Z) (p1 p2 : num) :
  (p1 <=? p2)%num = true ->
  forall fuel i steps current s,
    steps !! i = Some s ->
    length steps = S i ->
    is_fin s -> is_fin current ->
    (p1 >=? s + of_nat i * 2)%num = true ->
    (fuel <> 0%nat -> (Z.of_nat (i + fuel) <= L + 1)%Z) ->
    (level_loop (of_Z L)%num p1 fuel i steps current
       <=? level_loop (of_Z L)%num p2 fuel i steps current)%num = true.
Proof.
  intros H12. destruct (leb_not_NaN _ _ H12) as [Hp1 Hp2].
  induction fuel as [|fuel IH]; intros i steps current s Hs Hlen Fs Fc Hge Hfuel.
  - cbn. now apply leb_of_Z.
  - assert (Hi : (Z.of_nat i <= L)%Z) by lia.
    rewrite !(level_loop_step _ _ _ _ _ _ s Hs Hlen).
    set (s' := (s + current / 2)%num).
    set (b' := (s' + of_nat (S i) * 2)%num).
    assert (Fs' : is_fin s') by (subst s'; auto with num).
    assert (Fb' : is_fin b') by (subst b'; auto with num).
    assert (Hge2 : (p2 >=? s + of_nat i * 2)%num = true).
    { rewrite geb_leb in *. eapply leb_trans; eauto. }
    rewrite Hge, Hge2. cbn [andb].
    destruct (p1 <? b')%num eqn:E1.
    + destruct (p2 <? b')%num eqn:E2.
      * apply leb_refl. discriminate.
      * destruct (level_loop_range (of_Z L)%num p2 fuel (S i)
                    (steps ++ [s']) (current / 2)%num) as [-> | (j & Hj & ->)].
        -- apply leb_of_Z. lia.
        -- apply leb_of_Z. lia.
    + assert (E2 : (p2 <? b')%num = false).
      { destruct (p2 <? b')%num eqn:E2; [|reflexivity].
        rewrite (leb_ltb_trans _ _ _ H12 E2) in E1. discriminate. }
      rewrite E2.
      eapply IH with (s := s').
      * now apply list_lookup_middle.
      * rewrite length_app; cbn; lia.
      * exact Fs'.
      * auto with num.
      * apply ltb_false_geb; auto with num.
      * intros Hf. replace (S i + fuel)%nat with (i + S fuel)%nat by lia.
        apply Hfuel. discriminate.
Qed.

(** In the geometric regime every answer is an iteration index or the
    fall-through [levels], hence an integer of [[0, levels]]. *)
Lemma computeLevel_geometric_range (size : num) (levels : Z) (position : num) :
  (0 <= levels)%Z ->
  (size <=? (of_Z levels + 1) * 2)%num = false ->
  exists k : Z, computeLevel size levels position = (of_Z k)%num
                /\ (0 <= k <= levels)%Z.
Proof.
  intros Hl Hreg. unfold computeLevel. rewrite Hreg.
  destruct (level_loop_range (of_Z levels)%num position (Z.to_nat (levels + 1)) 0
              [0%num] (size - (of_Z levels + 1) * 2)%num)
    as [-> | (j & Hj & ->)].
  - exists levels. split; [reflexivity | lia].
  - exists (Z.of_nat j). split; [reflexivity | lia].
Qed.

(** [Math.round] of a rational of [[0, L]] is an integer of [[0, L]]. *)
Lemma round_bounds (v : Q) (L : Z) :
  (0 <= v)%Q -> (v <= inject_Z L)%Q ->
  (0 <= Qfloor (v + (1 # 2)%Q) <= L)%Z.
Proof.
  intros H0 HL. split.
  - change 0%Z with (Qfloor 0). apply Qfloor_resp_le. lra.
  - destruct (Z_le_gt_dec (Qfloor (v + (1 # 2)%Q)) L) as [|Hgt]; [assumption|].
    exfalso.
    assert (H1 : (L + 1 <= Qfloor (v + (1 # 2)%Q))%Z) by lia.
    rewrite Zle_Qle in H1. rewrite inject_Z_plus in H1.
    pose proof (Qfloor_le (v + (1 # 2)%Q)) as H2.
    change (inject_Z 1) with 1%Q in H1. lra.
Qed.

(** The dense regime on a position inside the cell. *)
Lemma computeLevel_dense_range (s p : Q) (levels : Z) :
  (0 <= levels)%Z -> (0 < s)%Q -> (0 <= p)%Q -> (p <= s)%Q ->
  exists k : Z,
    round (Fin p / (Fin s / of_Z levels))%num = (of_Z k)%num /\ (0 <= k <= levels)%Z.
Proof.
  intros Hl Hs Hp0 Hps.
  destruct (Z.eq_dec levels 0%Z) as [->|Hne].
  - exists 0%Z. split; [|lia].
    cbn. destruct (Qcompare_spec s 0) as [E|E|E]; try (exfalso; lra).
    reflexivity.
  - assert (HL : (0 < inject_Z levels)%Q).
    { change 0%Q with (inject_Z 0). rewrite <- Zlt_Qlt. lia. }
    cbn [div of_Z].
    destruct (Qeq_bool (inject_Z levels) 0) eqn:E0.
    { apply Qeq_bool_eq in E0. exfalso. lra. }
    set (d := Qred (s / inject_Z levels)).
    assert (Hd : (d == s / inject_Z levels)%Q) by apply Qred_correct.
    assert (Hdpos : (0 < d)%Q).
    { rewrite Hd. apply Qlt_shift_div_l; [assumption | lra]. }
    destruct (Qeq_bool d 0) eqn:E1.
    { apply Qeq_bool_eq in E1. exfalso. lra. }
    cbn [round].
    exists (Qfloor (Qred (p / d) + (1 # 2)%Q)). split; [reflexivity|].
    apply round_bounds; rewrite Qred_correct.
    + apply Qle_shift_div_l; [assumption | lra].
    + apply Qle_shift_div_r; [assumption|].
      rewrite Hd.
      assert (Hmul : (inject_Z levels * (s / inject_Z levels) == s)%Q).
      { field. lra. }
      rewrite Hmul. assumption.
Qed.

(** C3 (amended).  For a non-negative integer [levels]: in the geometric
    regime [computeLevel] answers an integer of [[0, levels]] for every
    size and position; in the dense regime it answers
    [round(position / (size / levels))], which is an integer of
    [[0, levels]] whenever the size is positive and the position lies in
    [[0, size]]. *)
Theorem computeLevel_range (size : num) (levels : Z) (position : num) :
  (0 <= levels)%Z ->
  ((size <=? (of_Z levels + 1) * 2)%num = false ->
     exists k : Z, computeLevel size levels position = (of_Z k)%num
                   /\ (0 <= k <= levels)%Z)
  /\ ((size <=? (of_Z levels + 1) * 2)%num = true ->
        computeLevel size levels position
          = round (position / (size / of_Z levels))%num
        /\ ((0 <? size)%num = true ->
            (0 <=? position)%num = true ->
            (position <=? size)%num = true ->
            exists k : Z, computeLevel size levels position = (of_Z k)%num
                          /\ (0 <= k <= levels)%Z)).
Proof.
  intros Hl. split.
  - now apply computeLevel_geometric_range.
  - intros Hreg. unfold computeLevel. rewrite Hreg. split; [reflexivity|].
    intros Hs Hp0 Hps.
    destruct size as [s| | |]; try discriminate.
    destruct position as [p| | |]; try discriminate.
    apply ltb_fin in Hs. apply leb_fin in Hp0. apply leb_fin in Hps.
    apply computeLevel_dense_range; auto.
Qed.

Lemma computeLevel_range_witness :
  (exists k : Z, computeLevel 100%num 3 50%num = (of_Z k)%num
                 /\ (0 <= k <= 3)%Z)
  /\ (exists k : Z, computeLevel 4%num 1 3%num = (of_Z k)%num
                    /\ (0 <= k <= 1)%Z).
Proof.
  split.
  - destruct (computeLevel_range 100%num 3 50%num) as [H _]; [lia|].
    exact (H eq_refl).
  - destruct (computeLevel_range 4%num 1 3%num) as [_ H]; [lia|].
    destruct (H eq_refl) as [_ H'].
    exact (H' eq_refl eq_refl eq_refl).
Defined.

(** C3 as stated fails: in the dense regime a position beyond the cell
    is not clamped.  With [size = 4], [levels = 1] the regime is dense and
    [position = 10] gives [round(10 / 4) = 3], outside [[0, 1]]. *)
Lemma computeLevel_range_counterexample :
  (4%num <=? (1 + 1) * 2)%num = true
  /\ computeLevel 4%num 1 10%num = 3%num
  /\ ~ (exists k : Z, computeLevel 4%num 1 10%num = (of_Z k)%num
                      /\ (0 <= k <= 1)%Z).
Proof.
  split; [reflexivity|]. split; [reflexivity|].
  intros (k & Hk & Hr). vm_compute in Hk.
  injection Hk as <-. lia.
Qed.

(** C4 (amended).  In the geometric regime, for a fixed finite size and
    fixed levels, [computeLevel] is non-decreasing in the position over
    the non-negative positions. *)
Theorem computeLevel_monotone (size : num) (levels : Z) (p1 p2 : num) :
  is_fin size ->
  (size <=? (of_Z levels + 1) * 2)%num = false ->
  (0 <=? p1)%num = true ->
  (p1 <=? p2)%num = true ->
  (computeLevel size levels p1 <=? computeLevel size levels p2)%num = true.
Proof.
  intros Fs Hreg H0 H12. unfold computeLevel. rewrite Hreg.
  apply level_loop_mono with (s := 0%num); auto with num.
  - rewrite geb_leb. exact H0.
  - lia.
Qed.

Lemma computeLevel_monotone_witness :
  (computeLevel 100%num 3 10%num
     <=? computeLevel 100%num 3 60%num)%num = true.
Proof.
  apply computeLevel_monotone; [exact I | reflexivity | reflexivity | reflexivity].
Defined.

(** C4 as stated fails on negative positions: no band contains them, so
    the loop falls through to [levels], the largest answer, while position
    [0] lies in band [0]. *)
Lemma computeLevel_monotone_counterexample :
  (100%num <=? (3 + 1) * 2)%num = false
  /\ ((-1)%num <=? 0%num)%num = true
  /\ computeLevel 100%num 3 (-1)%num = 3%num
  /\ computeLevel 100%num 3 0%num = 0%num
  /\ (computeLevel 100%num 3 (-1)%num
        <=? computeLevel 100%num 3 0%num)%num = false.
Proof. repeat split; reflexivity. Qed.

(* ================================================================== *)
(** ** The cell locator and the clamp *)
(* ================================================================== *)

Section Locate.

Lemma Qfloor_nonneg_iff (v : Q) : (0 <= Qfloor v)%Z <-> (0 <= v)%Q.
Proof.
  split; intros H.
  - rewrite Zle_Qle in H. pose proof (Qfloor_le v).
    change (inject_Z 0) with 0%Q in H. lra.
  - change 0%Z with (Qfloor 0). now apply Qfloor_resp_le.
Qed.

Lemma Qfloor_lt_iff (v : Q) (N : Z) : (Qfloor v < N)%Z <-> (v < inject_Z N)%Q.
Proof.
  split; intros H.
  - assert (H1 : (Qfloor v + 1 <= N)%Z) by lia.
    rewrite Zle_Qle in H1. pose proof (Qlt_floor v). lra.
  - destruct (Z_lt_le_dec (Qfloor v) N) as [|Hle]; [assumption|].
    rewrite Zle_Qle in Hle. pose proof (Qfloor_le v). lra.
Qed.

Lemma val_int_of_Z (z : Z) : val_int (of_Z z) z.
Proof. exists (inject_Z z). split; [reflexivity | lra]. Qed.

Lemma val_int_index (a : num) (z : Z) :
  val_int a z -> (0 <= z)%Z -> index a = Some (Z.to_nat z).
Proof.
  intros (q & -> & Hq) Hz. unfold index.
  assert (Hf : Qfloor q = z) by (rewrite (Qfloor_comp _ _ Hq); apply Qfloor_Z).
  rewrite Hf. rewrite (Qeq_eq_bool _ _ Hq).
  destruct (Z.leb_spec 0 z); [reflexivity | lia].
Qed.

Lemma index_is_fin (a : num) (i : nat) : index a = Some i -> is_fin a.
Proof. destruct a; simpl; [tauto | discriminate ..]. Qed.

(** The clamp of an integer [z] against a dimension [n >= 1]. *)
Lemma clamp_val_int (a : num) (z : Z) (n : nat) :
  val_int a z -> n <> 0%nat ->
  val_int (clamp a n) (Z.max 0 (Z.min z (Z.of_nat n - 1))).
Proof.
  intros (q & -> & Hq) Hn. unfold clamp.
  destruct (Z_lt_le_dec z (Z.of_nat n)) as [Hlt|Hge].
  - assert (E : (Fin q >=? of_nat n)%num = false).
    { rewrite geb_leb. destruct (of_nat n <=? Fin q)%num eqn:E; [|reflexivity].
      apply leb_fin in E. rewrite Zlt_Qlt in Hlt. lra. }
    rewrite E.
    destruct (Z_lt_le_dec z 0) as [Hneg|Hpos].
    + assert (E' : (Fin q <? 0)%num = true).
      { apply ltb_fin. rewrite Zlt_Qlt in Hneg.
        change (inject_Z 0) with 0%Q in Hneg. lra. }
      rewrite E'. replace (Z.max 0 (Z.min z (Z.of_nat n - 1))) with 0%Z by lia.
      apply (val_int_of_Z 0).
    + assert (E' : (Fin q <? 0)%num = false).
      { destruct (Fin q <? 0)%num eqn:E'; [|reflexivity].
        apply ltb_fin in E'. rewrite Zle_Qle in Hpos.
        change (inject_Z 0) with 0%Q in Hpos. lra. }
      rewrite E'. replace (Z.max 0 (Z.min z (Z.of_nat n - 1))) with z by lia.
      exists q. split; [reflexivity | assumption].
  - assert (E : (Fin q >=? of_nat n)%num = true).
    { rewrite geb_leb. apply leb_fin. rewrite Zle_Qle in Hge. lra. }
    rewrite E.
    replace (Z.max 0 (Z.min z (Z.of_nat n - 1))) with (Z.of_nat n - 1)%Z by lia.
    eexists. split; [reflexivity|].
    rewrite !Qred_correct. unfold Z.sub. rewrite inject_Z_plus, inject_Z_opp.
    reflexivity.
Qed.

(** A truthy (non-zero, non-[NaN]) extent divided by a positive count
    is truthy or infinite, and a finite coordinate divided by it floors
    to an integer. *)
Lemma located_integer (extent : num) (n : nat) (m : Q) :
  truthy extent = true -> n <> 0%nat ->
  exists z, floor (Fin m / (extent / of_nat n))%num = of_Z z.
Proof.
  intros Ht Hn.
  assert (Hnq : ~ (inject_Z (Z.of_nat n) == 0)%Q).
  { intros H. assert (0 < inject_Z (Z.of_nat n))%Q; [|lra].
    change 0%Q with (inject_Z 0). rewrite <- Zlt_Qlt. lia. }
  assert (Hpos : (0 < inject_Z (Z.of_nat n))%Q).
  { change 0%Q with (inject_Z 0). rewrite <- Zlt_Qlt. lia. }
  destruct extent as [w| | |]; try discriminate.
  - cbn in Ht. apply negb_true_iff in Ht. apply Qeq_bool_neq in Ht.
    unfold of_nat, of_Z. cbn [div].
    destruct (Qeq_bool (inject_Z (Z.of_nat n)) 0) eqn:E0.
    { apply Qeq_bool_eq in E0. contradiction. }
    destruct (Qeq_bool (Qred (w / inject_Z (Z.of_nat n))) 0) eqn:E1.
    { apply Qeq_bool_eq in E1. rewrite Qred_correct in E1. exfalso.
      apply Ht.
      assert (Hw : (w == w / inject_Z (Z.of_nat n) * inject_Z (Z.of_nat n))%Q)
        by (field; assumption).
      rewrite Hw, E1. lra. }
    cbn [floor]. eexists. reflexivity.
  - unfold of_nat, of_Z. cbn [div signum].
    destruct (Qeq_bool (inject_Z (Z.of_nat n)) 0) eqn:E0.
    { apply Qeq_bool_eq in E0. contradiction. }
    rewrite (proj1 (Qgt_alt _ _) Hpos). cbn. eexists. reflexivity.
  - unfold of_nat, of_Z. cbn [div signum].
    destruct (Qeq_bool (inject_Z (Z.of_nat n)) 0) eqn:E0.
    { apply Qeq_bool_eq in E0. contradiction. }
    rewrite (proj1 (Qgt_alt _ _) Hpos). cbn. eexists. reflexivity.
Qed.

(** The clamped coordinate is an index below the dimension. *)
Lemma clamped_index (extent : num) (n : nat) (m : Q) :
  truthy extent = true -> n <> 0%nat ->
  exists i,
    index (clamp (floor (Fin m / (extent / of_nat n))%num) n) = Some i
    /\ (i < n)%nat.
Proof.
  intros Ht Hn.
  destruct (located_integer extent n m Ht Hn) as [z ->].
  pose proof (clamp_val_int _ _ n (val_int_of_Z z) Hn) as Hc.
  exists (Z.to_nat (Z.max 0 (Z.min z (Z.of_nat n - 1)))). split.
  - apply val_int_index; [assumption | lia].
  - lia.
Qed.

End Locate.





(** C10.  For every finite pointer position and every matrix with at
    least one row whose rows all have the same non-zero length, over a
    room whose width and height are neither zero nor [NaN],
    [getMouseHoverCell] locates two integers [zc] and [zr], and
    [computeHover] reads the matrix at row [max 0 (min zr (rows - 1))] and
    cell [max 0 (min zc (cells - 1))]: both are within the bounds, the
    read finds a code, and what the call does is decided by that code
    alone: a logged miss at that cell when no callback is registered for
    it, a memo hit or the call of its callback otherwise.
    [getMouseHoverCell] itself does not clamp: on the 10 by 10 scale the
    pointer [(-5, 150)] is located at cell [-1] of row [15]. *)
Theorem computeHover_lookup_in_bounds (last : gmap string Memo)
    (drag hover : Node) (actions : Callbacks) (room : Room) (mx my : Q)
    (matrix : Matrix) (callbacks : gmap Z Callback) (m : string) (n : nat) :
  matrix <> [] -> n <> 0%nat ->
  Forall (fun line => length line = n) matrix ->
  truthy (width room) = true -> truthy (height room) = true ->
  let mouse := {| vec_x := Fin mx; vec_y := Fin my |} in
  (exists (scale : Vector) (zc zr : Z) (hoverCell : MatrixIndex)
          (line : list Z) (code : Z),
     getRoomScale room matrix = Some scale
     /\ getMouseHoverCell mouse scale = {| cell := of_Z zc; row := of_Z zr |}
     /\ let r := Z.to_nat (Z.max 0 (Z.min zr (Z.of_nat (length matrix) - 1))) in
        let c := Z.to_nat (Z.max 0 (Z.min zc (Z.of_nat n - 1))) in
        (r < length matrix)%nat /\ (c < n)%nat
        /\ index (row hoverCell) = Some r /\ index (cell hoverCell) = Some c
        /\ matrix !! r = Some line /\ line !! c = Some code
        /\ computeHover last drag hover actions room mouse matrix callbacks m
           = match callbacks !! code with
             | None =>
                 {| outcome := Missed; dispatched := [];
                    logged := [ {| diag_room := room; diag_mouse := mouse;
                                   diag_matrix := matrix; diag_scale := scale;
                                   diag_hoverCell := hoverCell;
                                   diag_rows := length matrix;
                                   diag_cells := n |} ];
                    memo := last |}
             | Some callback =>
                 let ctx := {| ctx_room := room; ctx_mouse := mouse;
                               ctx_position := hoverCell;
                               ctx_size := {| rows := length matrix;
                                              cells := n |};
                               ctx_scale := scale |} in
                 if deepEquals (key_of drag hover actions ctx) (last !! m)
                 then {| outcome := Suppressed; dispatched := [];
                         logged := []; memo := last |}
                 else {| outcome := Invoked;
                         dispatched := callback drag hover ctx;
                         logged := [];
                         memo := <[m := key_of drag hover actions ctx]> last |}
             end)
  /\ getMouseHoverCell {| vec_x := (-5)%num; vec_y := 150%num |}
       {| vec_x := 10%num; vec_y := 10%num |}
     = {| cell := (-1)%num; row := 15%num |}.
Proof.
  intros Hne Hn Hrect Hw Hh mouse. split; [|reflexivity].
  destruct matrix as [|line0 rest]; [congruence|].
  set (matrix := line0 :: rest) in *.
  assert (Hlen0 : length line0 = n) by (now inversion Hrect).
  assert (Hrows : length matrix <> 0%nat) by discriminate.
  destruct (located_integer (width room) n mx Hw Hn) as (zc & Hzc).
  destruct (located_integer (height room) (length matrix) my Hh Hrows)
    as (zr & Hzr).
  pose proof (clamp_val_int _ _ n (val_int_of_Z zc) Hn) as Hcc.
  pose proof (clamp_val_int _ _ (length matrix) (val_int_of_Z zr) Hrows) as Hcr.
  set (r := Z.to_nat (Z.max 0 (Z.min zr (Z.of_nat (length matrix) - 1)))).
  set (c := Z.to_nat (Z.max 0 (Z.min zc (Z.of_nat n - 1)))).
  assert (Hrlt : (r < length matrix)%nat) by (subst r; lia).
  assert (Hclt : (c < n)%nat) by (subst c; lia).
  destruct (lookup_lt_is_Some_2 matrix r Hrlt) as [line Hline].
  assert (Hll : length line = n).
  { rewrite Forall_lookup in Hrect. exact (Hrect r line Hline). }
  destruct (lookup_lt_is_Some_2 line c) as [code Hcode]; [lia|].
  set (scale := {| vec_x := (width room / of_nat n)%num;
                   vec_y := (height room / of_nat (length matrix))%num |}).
  assert (Hscale : getRoomScale room matrix = Some scale).
  { unfold getRoomScale. cbn [lookup list_lookup matrix]. now rewrite Hlen0. }
  assert (Hloc : getMouseHoverCell mouse scale
                 = {| cell := of_Z zc; row := of_Z zr |}).
  { unfold getMouseHoverCell. cbn [vec_x vec_y mouse scale].
    now rewrite Hzc, Hzr. }
  set (hoverCell := clampedCell mouse scale (length matrix) n).
  assert (Hir : index (row hoverCell) = Some r).
  { subst hoverCell. unfold clampedCell. rewrite Hloc. cbn [row].
    apply val_int_index; [exact Hcr | lia]. }
  assert (Hic : index (cell hoverCell) = Some c).
  { subst hoverCell. unfold clampedCell. rewrite Hloc. cbn [cell].
    apply val_int_index; [exact Hcc | lia]. }
  exists scale, zc, zr, hoverCell, line, code.
  split; [exact Hscale|]. split; [exact Hloc|]. cbv zeta. fold r c.
  split; [exact Hrlt|]. split; [exact Hclt|].
  split; [exact Hir|]. split; [exact Hic|].
  split; [exact Hline|]. split; [exact Hcode|].
  unfold computeHover. rewrite Hscale.
  replace (length (default [] (matrix !! 0%nat))) with n
    by (symmetry; exact Hlen0).
  cbv zeta. fold hoverCell. unfold js_get. rewrite Hir, Hline, Hic, Hcode.
  destruct (callbacks !! code); reflexivity.
Qed.

Lemma computeHover_lookup_in_bounds_witness :
  exists (scale : Vector) (zc zr : Z) (hoverCell : MatrixIndex)
         (line : list Z) (code : Z),
    getRoomScale {| width := 100%num; height := 100%num |} matrix_10x10
    = Some scale
    /\ getMouseHoverCell {| vec_x := Fin (-5); vec_y := Fin 50 |} scale
       = {| cell := of_Z zc; row := of_Z zr |}
    /\ let r := Z.to_nat (Z.max 0 (Z.min zr (Z.of_nat (length matrix_10x10) - 1))) in
       let c := Z.to_nat (Z.max 0 (Z.min zc (Z.of_nat 10 - 1))) in
       (r < length matrix_10x10)%nat /\ (c < 10)%nat
       /\ index (row hoverCell) = Some r /\ index (cell hoverCell) = Some c
       /\ matrix_10x10 !! r = Some line /\ line !! c = Some code
       /\ computeHover last0 (example_cell "a") (example_cell "b") 0%nat
            {| width := 100%num; height := 100%num |}
            {| vec_x := Fin (-5); vec_y := Fin 50 |}
            matrix_10x10 defaultCallbacks "10x10"
          = match defaultCallbacks !! code with
            | None =>
                {| outcome := Missed; dispatched := [];
                   logged := [ {| diag_room := {| width := 100%num;
                                                  height := 100%num |};
                                  diag_mouse := {| vec_x := Fin (-5);
                                                   vec_y := Fin 50 |};
                                  diag_matrix := matrix_10x10;
                                  diag_scale := scale;
                                  diag_hoverCell := hoverCell;
                                  diag_rows := length matrix_10x10;
                                  diag_cells := 10 |} ];
                   memo := last0 |}
            | Some callback =>
                let ctx := {| ctx_room := {| width := 100%num;
                                             height := 100%num |};
                              ctx_mouse := {| vec_x := Fin (-5);
                                              vec_y := Fin 50 |};
                              ctx_position := hoverCell;
                              ctx_size := {| rows := length matrix_10x10;
                                             cells := 10 |};
                              ctx_scale := scale |} in
                if deepEquals (key_of (example_cell "a") (example_cell "b")
                                 0%nat ctx) (last0 !! "10x10"%string)
                then {| outcome := Suppressed; dispatched := [];
                        logged := []; memo := last0 |}
                else {| outcome := Invoked;
                        dispatched := callback (example_cell "a")
                                        (example_cell "b") ctx;
                        logged := [];
                        memo := <["10x10"%string :=
                                    key_of (example_cell "a") (example_cell "b")
                                      0%nat ctx]> last0 |}
            end.
Proof.
  refine (proj1 (computeHover_lookup_in_bounds last0 (example_cell "a")
            (example_cell "b") 0%nat
            {| width := 100%num; height := 100%num |} (-5) 50
            matrix_10x10 defaultCallbacks "10x10" 10 _ _ _ _ _)).
  - discriminate.
  - discriminate.
  - repeat constructor.
  - reflexivity.
  - reflexivity.
Defined.

(** The instance above, computed: the pointer [(-5, 50)] is located at
    cell [-1] of row [5]; the cell read is the first one of row [5], zone
    [LA], whose interpreter runs. *)
Example computeHover_clamps_left :
  let r := computeHover last0 (example_cell "a") (example_cell "b") 0%nat
             {| width := 100%num; height := 100%num |}
             {| vec_x := Fin (-5); vec_y := Fin 50 |}
             matrix_10x10 defaultCallbacks "10x10" in
  outcome r = Invoked
  /\ dispatched r = [LeftOf (example_cell "a") (example_cell "b") 0%num].
Proof. split; reflexivity. Qed.

(* ================================================================== *)
(** ** The zone interpreters *)
(* ================================================================== *)

Lemma computeVertical_row (level : Z) (mouse : Vector) (hover : Node)
    (position : MatrixIndex) (scale : Vector) (inv : bool) :
  isRow hover = true ->
  computeVertical level mouse hover position scale inv = of_Z level.
Proof. intros H. unfold computeVertical. now rewrite H. Qed.

Lemma computeHorizontal_row (mouse : Vector) (position : MatrixIndex)
    (hover : Node) (scale : Vector) (level : Z) (inv : bool) :
  isRow hover = true ->
  computeHorizontal mouse position hover scale level inv = of_Z level.
Proof. intros H. unfold computeHorizontal. now rewrite H. Qed.

(** C7.  When the hovered node is a row, the interpreter registered for
    [AA] dispatches [above] at level [hover.levels.above], whatever the
    pointer position, room, scale and matrix index of the context: on a
    row [computeVertical] answers its [level] argument for every input
    and both values of [inv]. *)
Theorem AA_on_row_dispatches_max_level (item hover : Node) (ctx : Context) :
  isRow hover = true ->
  (exists callback,
     defaultCallbacks !! c.AA = Some callback
     /\ callback item hover ctx
        = [Above item hover (of_Z (levels_above (levels hover)))])
  /\ (forall level mouse position scale inv,
        computeVertical level mouse hover position scale inv = of_Z level).
Proof.
  intros Hrow. split.
  - exists on_AA. split; [reflexivity|].
    unfold on_AA. now rewrite computeVertical_row.
  - intros. now apply computeVertical_row.
Qed.

Lemma AA_on_row_dispatches_max_level_witness :
  exists callback,
    defaultCallbacks !! c.AA = Some callback
    /\ callback (example_cell "a") (example_row "b") (example_context 50 4)
       = [Above (example_cell "a") (example_row "b") 3%num].
Proof.
  exact (proj1 (AA_on_row_dispatches_max_level (example_cell "a")
                  (example_row "b") (example_context 50 4) eq_refl)).
Defined.

Lemma getDropLevel_cases (hover : Node) :
  (is_inline hover = false -> getDropLevel hover = 0%num)
  /\ (isRow hover = true -> getDropLevel hover = 0%num)
  /\ (isRow hover = false -> is_inline hover = true ->
      getDropLevel hover = 1%num).
Proof.
  unfold getDropLevel.
  destruct (isRow hover), (is_inline hover); cbn; repeat split;
    intros; congruence.
Qed.

(** The context [computeHover] builds over the 10x10 matrix and a room
    200 wide and 100 high (a scale of 20 by 10), pointer at [(mx, my)]
    in the cell [(cx, cy)]. *)
Ltac corner_at callback cx cy mx my :=
  match goal with
  | Hl : getDropLevel ?hover = 0%num
    |- dispatched (service_hover _ _ ?item ?hover _ _ _ _) = _ =>
      change (dispatched _) with
        (callback item hover
           {| ctx_room := {| width := 200%num; height := 100%num |};
              ctx_mouse := {| vec_x := of_Z mx; vec_y := of_Z my |};
              ctx_position := {| cell := of_Z cx; row := of_Z cy |};
              ctx_size := {| rows := 10; cells := 10 |};
              ctx_scale := {| vec_x := 20%num; vec_y := 10%num |} |});
      unfold callback; rewrite Hl; reflexivity
  end.

(** C6.  The corner interpreters split their cell along the diagonal of
    the pointer position relative to the cell,
    [x = round(mouse.x - position.cell * scale.x)] and
    [y = round(mouse.y - position.row * scale.y)]: [C1] dispatches
    [leftOf] when [x < y] and [above] otherwise, [C2] [rightOf] when
    [x > y] and [above] otherwise, [C3] [rightOf] when [x > y] and [below]
    otherwise, [C4] [leftOf] when [x < y] and [below] otherwise.  The level
    is [getDropLevel hover]: [1] for an inline cell, [0] for a node that is
    not inline (and for every row).  On the 10x10 matrix over a 100 by
    100 room, with a hovered cell that is not inline, the pointer [(2, 8)]
    dispatches [leftOf] at level [0] and the pointer [(8, 2)] dispatches
    [above] at level [0].  Over a room 200 wide and 100 high the four inner
    corners of that matrix, which lie away from the origin, do the same
    on the in-cell offsets [(2, 8)] and [(8, 2)], whatever the order of the
    absolute coordinates. *)
Theorem corner_interpreters (item hover : Node) (actions : Callbacks)
    (ctx : Context) :
  let x := round (vec_x (ctx_mouse ctx)
                  - cell (ctx_position ctx) * vec_x (ctx_scale ctx))%num in
  let y := round (vec_y (ctx_mouse ctx)
                  - row (ctx_position ctx) * vec_y (ctx_scale ctx))%num in
  let level := getDropLevel hover in
  (exists callback, defaultCallbacks !! c.C1 = Some callback
     /\ ((x <? y)%num = true -> callback item hover ctx = [LeftOf item hover level])
     /\ ((x <? y)%num = false -> callback item hover ctx = [Above item hover level]))
  /\ (exists callback, defaultCallbacks !! c.C2 = Some callback
     /\ ((x >? y)%num = true -> callback item hover ctx = [RightOf item hover level])
     /\ ((x >? y)%num = false -> callback item hover ctx = [Above item hover level]))
  /\ (exists callback, defaultCallbacks !! c.C3 = Some callback
     /\ ((x >? y)%num = true -> callback item hover ctx = [RightOf item hover level])
     /\ ((x >? y)%num = false -> callback item hover ctx = [Below item hover level]))
  /\ (exists callback, defaultCallbacks !! c.C4 = Some callback
     /\ ((x <? y)%num = true -> callback item hover ctx = [LeftOf item hover level])
     /\ ((x <? y)%num = false -> callback item hover ctx = [Below item hover level]))
  /\ ((is_inline hover = false -> level = 0%num)
      /\ (isRow hover = true -> level = 0%num)
      /\ (isRow hover = false -> is_inline hover = true -> level = 1%num))
  /\ (isRow hover = false -> is_inline hover = false ->
      let call room mouse :=
        dispatched (service_hover (newHoverService None None) last0 item hover
                      actions room mouse (Some "10x10"%string)) in
      let square := {| width := 100%num; height := 100%num |} in
      let wide := {| width := 200%num; height := 100%num |} in
      call square {| vec_x := 2%num; vec_y := 8%num |}
        = [LeftOf item hover 0%num]
      /\ call square {| vec_x := 8%num; vec_y := 2%num |}
         = [Above item hover 0%num]
      /\ call wide {| vec_x := 82%num; vec_y := 48%num |}
         = [LeftOf item hover 0%num]
      /\ call wide {| vec_x := 88%num; vec_y := 42%num |}
         = [Above item hover 0%num]
      /\ call wide {| vec_x := 108%num; vec_y := 42%num |}
         = [RightOf item hover 0%num]
      /\ call wide {| vec_x := 102%num; vec_y := 48%num |}
         = [Above item hover 0%num]
      /\ call wide {| vec_x := 108%num; vec_y := 52%num |}
         = [RightOf item hover 0%num]
      /\ call wide {| vec_x := 102%num; vec_y := 58%num |}
         = [Below item hover 0%num]
      /\ call wide {| vec_x := 82%num; vec_y := 58%num |}
         = [LeftOf item hover 0%num]
      /\ call wide {| vec_x := 88%num; vec_y := 52%num |}
         = [Below item hover 0%num]).
Proof.
  intros x y level.
  split; [|split; [|split; [|split; [|split]]]].
  - exists on_C1. split; [reflexivity|].
    unfold on_C1, relative, relativeMousePosition. cbn [vec_x vec_y].
    fold x y level. split; intros ->; reflexivity.
  - exists on_C2. split; [reflexivity|].
    unfold on_C2, relative, relativeMousePosition. cbn [vec_x vec_y].
    fold x y level. split; intros ->; reflexivity.
  - exists on_C3. split; [reflexivity|].
    unfold on_C3, relative, relativeMousePosition. cbn [vec_x vec_y].
    fold x y level. split; intros ->; reflexivity.
  - exists on_C4. split; [reflexivity|].
    unfold on_C4, relative, relativeMousePosition. cbn [vec_x vec_y].
    fold x y level. split; intros ->; reflexivity.
  - apply getDropLevel_cases.
  - intros Hrow Hinl.
    assert (Hl : getDropLevel hover = 0%num)
      by (exact (proj1 (getDropLevel_cases hover) Hinl)).
    cbv zeta. repeat split.
    + change (dispatched _) with (on_C1 item hover
        {| ctx_room := {| width := 100%num; height := 100%num |};
           ctx_mouse := {| vec_x := 2%num; vec_y := 8%num |};
           ctx_position := {| cell := 0%num; row := 0%num |};
           ctx_size := {| rows := 10; cells := 10 |};
           ctx_scale := {| vec_x := 10%num; vec_y := 10%num |} |}).
      unfold on_C1. rewrite Hl. reflexivity.
    + change (dispatched _) with (on_C1 item hover
        {| ctx_room := {| width := 100%num; height := 100%num |};
           ctx_mouse := {| vec_x := 8%num; vec_y := 2%num |};
           ctx_position := {| cell := 0%num; row := 0%num |};
           ctx_size := {| rows := 10; cells := 10 |};
           ctx_scale := {| vec_x := 10%num; vec_y := 10%num |} |}).
      unfold on_C1. rewrite Hl. reflexivity.
    + corner_at on_C1 4%Z 4%Z 82%Z 48%Z.
    + corner_at on_C1 4%Z 4%Z 88%Z 42%Z.
    + corner_at on_C2 5%Z 4%Z 108%Z 42%Z.
    + corner_at on_C2 5%Z 4%Z 102%Z 48%Z.
    + corner_at on_C3 5%Z 5%Z 108%Z 52%Z.
    + corner_at on_C3 5%Z 5%Z 102%Z 58%Z.
    + corner_at on_C4 4%Z 5%Z 82%Z 58%Z.
    + corner_at on_C4 4%Z 5%Z 88%Z 52%Z.
Qed.

Lemma corner_interpreters_witness :
  let call room mouse :=
    dispatched (service_hover (newHoverService None None) last0
                  (example_cell "a") (example_cell "b") 0%nat room mouse
                  (Some "10x10"%string)) in
  let square := {| width := 100%num; height := 100%num |} in
  let wide := {| width := 200%num; height := 100%num |} in
  call square {| vec_x := 2%num; vec_y := 8%num |}
    = [LeftOf (example_cell "a") (example_cell "b") 0%num]
  /\ call square {| vec_x := 8%num; vec_y := 2%num |}
     = [Above (example_cell "a") (example_cell "b") 0%num]
  /\ call wide {| vec_x := 82%num; vec_y := 48%num |}
     = [LeftOf (example_cell "a") (example_cell "b") 0%num]
  /\ call wide {| vec_x := 88%num; vec_y := 42%num |}
     = [Above (example_cell "a") (example_cell "b") 0%num]
  /\ call wide {| vec_x := 108%num; vec_y := 42%num |}
     = [RightOf (example_cell "a") (example_cell "b") 0%num]
  /\ call wide {| vec_x := 102%num; vec_y := 48%num |}
     = [Above (example_cell "a") (example_cell "b") 0%num]
  /\ call wide {| vec_x := 108%num; vec_y := 52%num |}
     = [RightOf (example_cell "a") (example_cell "b") 0%num]
  /\ call wide {| vec_x := 102%num; vec_y := 58%num |}
     = [Below (example_cell "a") (example_cell "b") 0%num]
  /\ call wide {| vec_x := 82%num; vec_y := 58%num |}
     = [LeftOf (example_cell "a") (example_cell "b") 0%num]
  /\ call wide {| vec_x := 88%num; vec_y := 52%num |}
     = [Below (example_cell "a") (example_cell "b") 0%num].
Proof.
  exact (proj2 (proj2 (proj2 (proj2 (proj2
           (corner_interpreters (example_cell "a") (example_cell "b") 0%nat
              (example_context 0 0))))))
         eq_refl eq_refl).
Defined.

(* ------------------------------------------------------------------ *)
(** *** Inline zones *)

Lemma inline_is_iff (n : Node) (s : Side) :
  inline_is n s = true <-> inline n = Some s.
Proof.
  unfold inline_is. destruct (inline n) as [[]|], s; cbn;
    split; congruence.
Qed.

(** C8 (amended).  For zone [IL] ([IR]): if the dragged or the hovered
    node is a row, nothing is dispatched.  Otherwise [leftOf] ([rightOf])
    at level [2] is dispatched when the hovered node is inline, or the
    dragged node's plugin is not inline-capable, or the hovered node has an
    inline neighbour other than the dragged node, or it has the dragged
    node as inline neighbour and the dragged node is itself marked inline
    on the zone's own side (['left'] for [IL], ['right'] for [IR]); and
    [inlineLeft] ([inlineRight]), which takes no level, is dispatched
    exactly when none of these holds. *)
Theorem inline_interpreters (zone : Side) (item hover : Node) (ctx : Context) :
  defaultCallbacks !! inline_code zone = Some (inline_callback zone)
  /\ (isRow item = true \/ isRow hover = true ->
      inline_callback zone item hover ctx = [])
  /\ (isRow item = false -> isRow hover = false ->
      (disqualified zone item hover ->
       inline_callback zone item hover ctx = [directional zone item hover])
      /\ (~ disqualified zone item hover ->
          inline_callback zone item hover ctx = [merging zone item hover])).
Proof.
  split; [destruct zone; reflexivity|].
  split.
  - intros Hrow. destruct zone; cbn [inline_callback]; unfold on_IL, on_IR;
      destruct (isRow item), (isRow hover); cbn [orb]; try reflexivity;
      destruct Hrow; discriminate.
  - intros Hi Hh. unfold disqualified.
    pose proof (inline_is_iff item zone) as Hm.
    destruct zone; cbn [inline_callback directional merging];
      unfold on_IL, on_IR; rewrite Hi, Hh; cbn [orb];
      destruct (is_inline hover), (item_isInlineable item),
        (truthy_string (hasInlineNeighbour hover)),
        (neighbour_is (hasInlineNeighbour hover) (node_id item));
      cbn [orb andb negb];
      try (split; [reflexivity | intros Hn; exfalso; apply Hn; tauto]);
      match goal with
      | |- context [inline_is ?i ?s] =>
          destruct (inline_is i s) eqn:E;
          [ split; [reflexivity
                   | intros Hn; exfalso; apply Hn;
                     right; right; right; repeat split; now apply Hm]
          | split; [intros [?|[?|[[? ?]|[? [? Hs]]]]]; try discriminate;
                    apply Hm in Hs; congruence
                   | reflexivity] ]
      | _ => split; [intros [?|[?|[[? ?]|[? [? ?]]]]]; discriminate
                    | reflexivity]
      end.
Qed.

Lemma inline_interpreters_witness :
  inline_callback SideLeft (example_cell "a") (example_inline_cell "b")
    (example_context 15 15)
  = [LeftOf (example_cell "a") (example_inline_cell "b") 2%num].
Proof.
  refine (proj1 (proj2 (proj2 (inline_interpreters SideLeft (example_cell "a")
            (example_inline_cell "b") (example_context 15 15)))
            eq_refl eq_refl) _).
  left. reflexivity.
Defined.

(** C8 as worded fails.  Let the hovered cell have the dragged cell as
    its inline neighbour, the dragged cell being inline-capable and marked
    inline ['right'].  In zone [IL] the dragged node is the neighbour on
    the side opposite to the zone, for which the claim announces
    [leftOf] at level [2]; the interpreter dispatches [inlineLeft].  With
    the marker ['left'] the claim announces [inlineLeft] and the
    interpreter dispatches [leftOf] at level [2]. *)
Lemma inline_interpreters_counterexample :
  let item s := {| node_id := "a"; isRow := false; inline := Some s;
                   hasInlineNeighbour := None; levels := example_levels;
                   content := inlineable_content |} in
  let hover := {| node_id := "b"; isRow := false; inline := None;
                  hasInlineNeighbour := Some "a"%string;
                  levels := example_levels; content := None |} in
  let ctx := example_context 15 15 in
  on_IL (item SideRight) hover ctx = [InlineLeft (item SideRight) hover]
  /\ inline_zone_as_claimed SideLeft (item SideRight) hover
     = [LeftOf (item SideRight) hover 2%num]
  /\ on_IL (item SideLeft) hover ctx = [LeftOf (item SideLeft) hover 2%num]
  /\ inline_zone_as_claimed SideLeft (item SideLeft) hover
     = [InlineLeft (item SideLeft) hover]
  /\ on_IL (item SideRight) hover ctx
     <> inline_zone_as_claimed SideLeft (item SideRight) hover.
Proof. cbv zeta. repeat split; try reflexivity. discriminate. Qed.

(* ================================================================== *)
(** ** The hover engine *)
(* ================================================================== *)

(** Every default interpreter makes at most one call on the
    action-dispatch object. *)
Lemma default_callback_at_most_one (code : Z) (callback : Callback) :
  defaultCallbacks !! code = Some callback ->
  forall item hover ctx, (length (callback item hover ctx) <= 1)%nat.
Proof.
  intros H item hover ctx.
  apply elem_of_list_to_map_2 in H. unfold callback_table in H.
  repeat (apply elem_of_cons in H as [H|H];
          [ injection H as _ ->;
            cbv [on_NO on_C1 on_C2 on_C3 on_C4 on_AH on_BH on_LH on_RH
                 on_AA on_BA on_LA on_RA on_IL on_IR];
            repeat match goal with
                   | |- context [if ?b then _ else _] => destruct b
                   end;
            cbn [length]; lia
          | ]).
  now apply elem_of_nil in H.
Qed.

(** Over two nodes that are not rows every default interpreter makes
    exactly one call. *)
Lemma default_callback_exactly_one (code : Z) (callback : Callback) :
  defaultCallbacks !! code = Some callback ->
  forall item hover ctx,
    isRow item = false -> isRow hover = false ->
    length (callback item hover ctx) = 1%nat.
Proof.
  intros H item hover ctx Hi Hh.
  apply elem_of_list_to_map_2 in H. unfold callback_table in H.
  repeat (apply elem_of_cons in H as [H|H];
          [ injection H as _ ->;
            cbv [on_NO on_C1 on_C2 on_C3 on_C4 on_AH on_BH on_LH on_RH
                 on_AA on_BA on_LA on_RA on_IL on_IR];
            rewrite ?Hi, ?Hh; cbn [orb];
            repeat match goal with
                   | |- context [if ?b then _ else _] => destruct b
                   end;
            reflexivity
          | ]).
  now apply elem_of_nil in H.
Qed.

(** C9.  When the matrix cell at the clamped index holds a code for
    which no callback is registered, [hover] dispatches no action, logs
    one diagnostic that carries the room, the pointer, the matrix, the
    scale, the clamped cell and the matrix dimensions, returns without a
    [TypeError], and leaves the memo store as it found it: any later call
    runs against the store left by the last earlier call. *)
Theorem classification_miss (svc : HoverService) (last : gmap string Memo)
    (drag hover : Node) (actions : Callbacks) (room : Room) (mouse : Vector)
    (name : option string) (matrix : Matrix)
    (scale : Vector) (line0 line : list Z) (code : Z) :
  matrices svc !! default "10x10"%string name = Some matrix ->
  getRoomScale room matrix = Some scale ->
  matrix !! 0%nat = Some line0 ->
  let hoverCell := clampedCell mouse scale (length matrix) (length line0) in
  js_get matrix (row hoverCell) = Some line ->
  js_get line (cell hoverCell) = Some code ->
  callbacks svc !! code = None ->
  let r := service_hover svc last drag hover actions room mouse name in
  outcome r = Missed
  /\ dispatched r = []
  /\ logged r = [ {| diag_room := room; diag_mouse := mouse;
                     diag_matrix := matrix; diag_scale := scale;
                     diag_hoverCell := hoverCell;
                     diag_rows := length matrix;
                     diag_cells := length line0 |} ]
  /\ memo r = last
  /\ (forall drag' hover' actions' room' mouse' name',
        service_hover svc (memo r) drag' hover' actions' room' mouse' name'
        = service_hover svc last drag' hover' actions' room' mouse' name').
Proof.
  intros Hmx Hscale H0 hoverCell Hline Hcode Hcb r.
  assert (Hr : r = {| outcome := Missed; dispatched := [];
                      logged := [ {| diag_room := room; diag_mouse := mouse;
                                     diag_matrix := matrix; diag_scale := scale;
                                     diag_hoverCell := hoverCell;
                                     diag_rows := length matrix;
                                     diag_cells := length line0 |} ];
                      memo := last |}).
  { subst r hoverCell. unfold service_hover. rewrite Hmx.
    unfold computeHover. rewrite Hscale, H0.
    cbn [default from_option id]. cbv zeta.
    rewrite Hline, Hcode.
    now rewrite Hcb. }
  rewrite Hr. cbn. repeat split; reflexivity.
Qed.

Lemma classification_miss_witness :
  let svc := newHoverService (Some {[ "custom"%string := [[999%Z]] ]}) None in
  let room := {| width := 100%num; height := 100%num |} in
  let mouse := {| vec_x := 30%num; vec_y := 70%num |} in
  let r := service_hover svc last0 (example_cell "a") (example_cell "b") 0%nat
             room mouse (Some "custom"%string) in
  outcome r = Missed
  /\ dispatched r = []
  /\ logged r = [ {| diag_room := room; diag_mouse := mouse;
                     diag_matrix := [[999%Z]];
                     diag_scale := {| vec_x := 100%num; vec_y := 100%num |};
                     diag_hoverCell := {| cell := 0%num; row := 0%num |};
                     diag_rows := 1; diag_cells := 1 |} ]
  /\ memo r = last0.
Proof.
  intros svc room mouse r.
  destruct (classification_miss svc last0 (example_cell "a") (example_cell "b")
              0%nat room mouse (Some "custom"%string) [[999%Z]]
              {| vec_x := 100%num; vec_y := 100%num |} [999%Z] [999%Z] 999%Z
              eq_refl eq_refl eq_refl eq_refl eq_refl eq_refl)
    as (H1 & H2 & H3 & H4 & _).
  repeat split; assumption.
Defined.

(* ------------------------------------------------------------------ *)
(** *** Memoisation *)

Lemma eqb_refl (a : num) : a <> NaN -> eqb a a = true.
Proof.
  unfold eqb. destruct a as [q| | |]; cbn; try congruence.
  intros _. now rewrite (proj1 (Qeq_alt q q) (Qeq_refl q)).
Qed.

Lemma div_not_NaN (a b : num) : (a / b)%num <> NaN -> a <> NaN /\ b <> NaN.
Proof. destruct a, b; cbn; intuition congruence. Qed.

Lemma floor_not_NaN (a : num) : floor a <> NaN -> a <> NaN.
Proof. destruct a; cbn; congruence. Qed.

Lemma clamp_not_NaN (a : num) (n : nat) : clamp a n <> NaN -> a <> NaN.
Proof. intros H ->. now apply H. Qed.

Lemma js_get_not_NaN {A : Type} (arr : list A) (a : num) (x : A) :
  js_get arr a = Some x -> a <> NaN.
Proof. intros H ->. discriminate. Qed.

(** A key is built only after both reads of the matrix succeeded, and
    then none of its numbers is [NaN]. *)
Lemma reached_key_has_no_NaN (room : Room) (mouse : Vector) (matrix : Matrix)
    (scale : Vector) (line0 line : list Z) (code : Z) :
  getRoomScale room matrix = Some scale ->
  matrix !! 0%nat = Some line0 ->
  let hoverCell := clampedCell mouse scale (length matrix) (length line0) in
  js_get matrix (row hoverCell) = Some line ->
  js_get line (cell hoverCell) = Some code ->
  no_NaN {| ctx_room := room; ctx_mouse := mouse; ctx_position := hoverCell;
            ctx_size := {| rows := length matrix; cells := length line0 |};
            ctx_scale := scale |}.
Proof.
  intros Hscale H0 hoverCell Hline Hcode.
  unfold getRoomScale in Hscale. rewrite H0 in Hscale.
  injection Hscale as <-.
  apply js_get_not_NaN in Hline, Hcode.
  pose proof Hline as Hr. pose proof Hcode as Hc.
  apply clamp_not_NaN, floor_not_NaN, div_not_NaN in Hr as [Hmy Hsy].
  apply clamp_not_NaN, floor_not_NaN, div_not_NaN in Hc as [Hmx Hsx].
  cbn [vec_x vec_y] in *.
  pose proof (div_not_NaN _ _ Hsx) as [Hw _].
  pose proof (div_not_NaN _ _ Hsy) as [Hh _].
  unfold no_NaN. cbn. repeat split; assumption.
Qed.

Lemma deepEquals_refl (key : Memo) :
  no_NaN (memo_ctx key) -> deepEquals key (Some key) = true.
Proof.
  intros (Hw & Hh & Hmx & Hmy & Hc & Hr & Hsx & Hsy).
  unfold deepEquals, context_eqb, vector_eqb.
  rewrite !String.eqb_refl, !Nat.eqb_refl.
  now rewrite !eqb_refl by assumption.
Qed.

(** What one call of [hover] on a service with the default interpreters
    dispatches: at most one action, none unless an interpreter ran, and
    exactly one when an interpreter ran over two nodes that are not rows. *)
Lemma hover_dispatches_once_aux (ms : option (gmap string Matrix))
    (last : gmap string Memo) (drag hover : Node) (actions : Callbacks)
    (room : Room) (mouse : Vector) (matrix : option string) :
  let r := service_hover (newHoverService ms None) last drag hover actions
             room mouse matrix in
  ((length (dispatched r) <= 1)%nat
   /\ (outcome r <> Invoked -> dispatched r = []))
  /\ (outcome r = Invoked -> isRow drag = false -> isRow hover = false ->
      length (dispatched r) = 1%nat).
Proof.
  intros r. subst r. unfold service_hover, newHoverService.
  cbn [callbacks matrices default from_option id].
  destruct (from_option id defaultMatrices ms !! from_option id "10x10"%string matrix)
    as [mx|]; [|cbn; repeat split; auto; discriminate].
  unfold computeHover.
  destruct (getRoomScale room mx) as [scale|];
    [|cbn; repeat split; auto; discriminate].
  cbv zeta.
  destruct (js_get mx _) as [line|]; [|cbn; repeat split; auto; discriminate].
  destruct (js_get line _) as [code|]; [|cbn; repeat split; auto; discriminate].
  destruct (defaultCallbacks !! code) as [callback|] eqn:Hcb;
    [|cbn; repeat split; auto; discriminate].
  destruct (deepEquals _ _); [cbn; repeat split; auto; discriminate|].
  cbn [dispatched outcome].
  split; [split|].
  - now apply (default_callback_at_most_one code).
  - congruence.
  - intros _ Hd Hh. now apply (default_callback_exactly_one code).
Qed.

(** C1.  A call of [hover] on a service built with the default
    interpreters, whatever its matrices, the state of the memo store and
    its arguments, makes at most one call on the action-dispatch object,
    and none when it ends on a classification miss, on a memo hit or on a
    [TypeError]. *)
Theorem hover_dispatches_at_most_once (ms : option (gmap string Matrix))
    (last : gmap string Memo) (drag hover : Node) (actions : Callbacks)
    (room : Room) (mouse : Vector) (matrix : option string) :
  let r := service_hover (newHoverService ms None) last drag hover actions
             room mouse matrix in
  (length (dispatched r) <= 1)%nat
  /\ (outcome r = Missed -> dispatched r = [])
  /\ (outcome r = Suppressed -> dispatched r = [])
  /\ (outcome r = TypeError -> dispatched r = []).
Proof.
  intros r.
  destruct (hover_dispatches_once_aux ms last drag hover actions room mouse
              matrix) as [[Hle Hnone] _].
  fold r in Hle, Hnone.
  split; [exact Hle|].
  repeat split; intros Ho; apply Hnone; rewrite Ho; discriminate.
Qed.

(** Two consecutive calls of [computeHover] on the same arguments: the
    second one repeats a [TypeError] or a miss, and is otherwise a memo
    hit; it never dispatches. *)
Lemma computeHover_twice (last : gmap string Memo) (drag hover : Node)
    (actions : Callbacks) (room : Room) (mouse : Vector) (matrix : Matrix)
    (callbacks : gmap Z Callback) (m : string) :
  let r1 := computeHover last drag hover actions room mouse matrix callbacks m in
  let r2 := computeHover (memo r1) drag hover actions room mouse matrix
              callbacks m in
  dispatched r2 = []
  /\ (outcome r1 = Invoked \/ outcome r1 = Suppressed -> outcome r2 = Suppressed)
  /\ (outcome r1 = Missed -> outcome r2 = Missed)
  /\ (outcome r1 = TypeError -> outcome r2 = TypeError).
Proof.
  intros r1 r2. subst r2 r1. unfold computeHover.
  destruct (getRoomScale room matrix) as [scale|] eqn:Hscale;
    [|cbn; intuition discriminate].
  destruct (matrix !! 0%nat) as [line0|] eqn:H0;
    [|unfold getRoomScale in Hscale; rewrite H0 in Hscale; discriminate].
  cbn [default from_option id]. cbv zeta.
  destruct (js_get matrix _) as [line|] eqn:Hline;
    [|cbn; intuition discriminate].
  destruct (js_get line _) as [code|] eqn:Hcode;
    [|cbn; intuition discriminate].
  destruct (callbacks !! code) as [callback|] eqn:Hcb;
    [|cbn; intuition discriminate].
  pose proof (reached_key_has_no_NaN room mouse matrix scale line0 line code
                Hscale H0 Hline Hcode) as Hkey.
  destruct (deepEquals _ (last !! m)) eqn:Hde.
  - cbn [memo outcome]. rewrite Hde. cbn. intuition discriminate.
  - cbn [memo outcome]. rewrite lookup_insert_eq.
    rewrite deepEquals_refl by exact Hkey.
    cbn. intuition discriminate.
Qed.

(** C2 (amended).  Of two consecutive calls of [hover] with identical
    arguments on a service with the default interpreters, the second
    never dispatches, so at most one dispatch occurs in total.  When the
    first call runs an interpreter (or is itself a memo hit) the second
    is suppressed by the memo of that matrix name; after a classification
    miss it misses again.  Exactly one dispatch occurs when the first call
    runs an interpreter and neither node is a row (over a row the
    interpreters of [IL] and [IR] dispatch nothing). *)
Theorem hover_twice (ms : option (gmap string Matrix))
    (last : gmap string Memo) (drag hover : Node) (actions : Callbacks)
    (room : Room) (mouse : Vector) (matrix : option string) :
  let svc := newHoverService ms None in
  let r1 := service_hover svc last drag hover actions room mouse matrix in
  let r2 := service_hover svc (memo r1) drag hover actions room mouse matrix in
  dispatched r2 = []
  /\ (length (dispatched r1 ++ dispatched r2) <= 1)%nat
  /\ (outcome r1 = Invoked \/ outcome r1 = Suppressed -> outcome r2 = Suppressed)
  /\ (outcome r1 = Missed -> outcome r2 = Missed)
  /\ (outcome r1 = Invoked -> isRow drag = false -> isRow hover = false ->
      length (dispatched r1 ++ dispatched r2) = 1%nat).
Proof.
  intros svc r1 r2.
  pose proof (hover_dispatches_once_aux ms last drag hover actions room mouse
                matrix) as Hone.
  fold svc in Hone. fold r1 in Hone.
  assert (H2 : dispatched r2 = []
               /\ (outcome r1 = Invoked \/ outcome r1 = Suppressed ->
                   outcome r2 = Suppressed)
               /\ (outcome r1 = Missed -> outcome r2 = Missed)).
  { subst r2 r1 svc. unfold service_hover.
    destruct (matrices (newHoverService ms None) !! default "10x10"%string matrix)
      as [mx|]; [|cbn; intuition discriminate].
    pose proof (computeHover_twice last drag hover actions room mouse mx
                  (callbacks (newHoverService ms None))
                  (default "10x10"%string matrix)) as H.
    cbv zeta in H. tauto. }
  destruct H2 as (Hd & Hs & Hm). destruct Hone as ((Hle & _) & Hex).
  rewrite Hd, app_nil_r.
  split; [reflexivity|]. split; [exact Hle|]. split; [exact Hs|].
  split; [exact Hm | exact Hex].
Qed.

(** C2 as stated fails: two consecutive identical calls need not
    dispatch exactly once.  On a fresh memo store, with the default
    service, the 10x10 matrix and a 100 by 100 room, the pointer
    [(15, 15)] lies in zone [IL]; over a hovered row the interpreter runs
    and dispatches nothing, and the second call is suppressed: no
    dispatch in total.  Likewise the second and third of three identical
    calls over cells are both suppressed. *)
Lemma hover_twice_counterexample :
  let svc := newHoverService None None in
  let room := {| width := 100%num; height := 100%num |} in
  let mouse := {| vec_x := 15%num; vec_y := 15%num |} in
  let call last hover :=
    service_hover svc last (example_cell "a") hover 0%nat room mouse None in
  let r1 := call last0 (example_row "b") in
  let r2 := call (memo r1) (example_row "b") in
  let s1 := call last0 (example_cell "b") in
  let s2 := call (memo s1) (example_cell "b") in
  let s3 := call (memo s2) (example_cell "b") in
  (outcome r1 = Invoked /\ dispatched r1 = []
   /\ outcome r2 = Suppressed /\ dispatched r2 = []
   /\ length (dispatched r1 ++ dispatched r2) <> 1%nat)
  /\ (outcome s1 = Invoked /\ outcome s2 = Suppressed /\ outcome s3 = Suppressed
      /\ length (dispatched s2 ++ dispatched s3) <> 1%nat).
Proof. vm_compute. repeat split; discriminate. Qed.

(** The dense-regime overshoot of the level resolver is reachable through
    [hover]: over a room 40 wide (scale 4) with [levels.right = 1], the
    pointer [x = 46], beyond the right edge, is clamped to the last column
    (zone [RA]) and dispatches [rightOf] at level [3]. *)
Example hover_dense_overshoot :
  let hover := {| node_id := "b"; isRow := false; inline := None;
                  hasInlineNeighbour := None;
                  levels := {| levels_above := 1; levels_below := 1;
                               levels_left := 1; levels_right := 1 |};
                  content := None |} in
  dispatched (service_hover (newHoverService None None) last0
                (example_cell "a") hover 0%nat
                {| width := 40%num; height := 100%num |}
                {| vec_x := 46%num; vec_y := 50%num |} None)
  = [RightOf (example_cell "a") hover 3%num].
Proof. reflexivity. Qed.

(** The fall-through of the geometric regime on a negative offset is
    reachable as well: left of the room the pointer [x = -1] is clamped to
    the first column (zone [LA], inverted), whose level is
    [levels.left - computeLevel = 3 - 3 = 0], while [x = 0] gives
    [3 - 0 = 3]. *)
Example hover_negative_offset :
  let call x :=
    dispatched (service_hover (newHoverService None None) last0
                  (example_cell "a") (example_cell "b") 0%nat
                  {| width := 1000%num; height := 100%num |}
                  {| vec_x := x; vec_y := 50%num |} None) in
  call (-1)%num = [LeftOf (example_cell "a") (example_cell "b") 0%num]
  /\ call 0%num = [LeftOf (example_cell "a") (example_cell "b") 3%num].
Proof. split; reflexivity. Qed.

(* ================================================================== *)
(** ** Quotients by a number of rows or columns *)
(* ================================================================== *)

Lemma eqb_fin (p q : Q) : eqb (Fin p) (Fin q) = true <-> (p == q)%Q.
Proof.
  unfold eqb; cbn. rewrite Qeq_alt.
  destruct (p ?= q)%Q; split; intros; congruence.
Qed.

Lemma inject_Z_of_nat_pos (n : nat) :
  n <> 0%nat -> (0 < inject_Z (Z.of_nat n))%Q.
Proof. intros Hn. change 0%Q with (inject_Z 0). rewrite <- Zlt_Qlt. lia. Qed.

Lemma div_fin_of_nat (w : Q) (n : nat) :
  n <> 0%nat ->
  (Fin w / of_nat n)%num = Fin (Qred (w / inject_Z (Z.of_nat n))).
Proof.
  intros Hn. pose proof (inject_Z_of_nat_pos n Hn) as Hpos.
  unfold of_nat, of_Z. cbn [div].
  destruct (Qeq_bool (inject_Z (Z.of_nat n)) 0) eqn:E; [|reflexivity].
  apply Qeq_bool_eq in E. exfalso. lra.
Qed.

(* ================================================================== *)
(** ** Further properties of the hover engine *)
(* ================================================================== *)

Lemma computeHover_reached (last : gmap string Memo) (drag hover : Node)
    (actions : Callbacks) (room : Room) (mouse : Vector) (matrix : Matrix)
    (callbacks : gmap Z Callback) (m : string) (ctx : Context)
    (callback : Callback) :
  classify room mouse matrix callbacks = Some (ctx, callback) ->
  computeHover last drag hover actions room mouse matrix callbacks m
  = if deepEquals (key_of drag hover actions ctx) (last !! m)
    then {| outcome := Suppressed; dispatched := []; logged := [];
            memo := last |}
    else {| outcome := Invoked; dispatched := callback drag hover ctx;
            logged := [];
            memo := <[m := key_of drag hover actions ctx]> last |}.
Proof.
  unfold classify, computeHover, key_of.
  destruct (getRoomScale room matrix) as [scale|]; [|discriminate].
  cbv zeta.
  destruct (js_get matrix _) as [line|]; [|discriminate].
  destruct (js_get line _) as [code|]; [|discriminate].
  destruct (callbacks !! code) as [cb|]; [|discriminate].
  intros [= <- <-]. reflexivity.
Qed.

Lemma computeHover_unreached (last : gmap string Memo) (drag hover : Node)
    (actions : Callbacks) (room : Room) (mouse : Vector) (matrix : Matrix)
    (callbacks : gmap Z Callback) (m : string) :
  classify room mouse matrix callbacks = None ->
  let r := computeHover last drag hover actions room mouse matrix callbacks m in
  (outcome r = TypeError \/ outcome r = Missed)
  /\ dispatched r = [] /\ memo r = last.
Proof.
  unfold classify, computeHover.
  destruct (getRoomScale room matrix) as [scale|]; [|cbn; auto].
  cbv zeta.
  destruct (js_get matrix _) as [line|]; [|cbn; auto].
  destruct (js_get line _) as [code|]; [|cbn; auto].
  destruct (callbacks !! code) as [cb|]; [discriminate|cbn; auto].
Qed.

Lemma classify_no_NaN (room : Room) (mouse : Vector) (matrix : Matrix)
    (callbacks : gmap Z Callback) (ctx : Context) (callback : Callback) :
  classify room mouse matrix callbacks = Some (ctx, callback) ->
  no_NaN ctx /\ ctx_room ctx = room /\ ctx_mouse ctx = mouse.
Proof.
  unfold classify.
  destruct (getRoomScale room matrix) as [scale|] eqn:Hscale; [|discriminate].
  destruct (matrix !! 0%nat) as [line0|] eqn:H0;
    [|unfold getRoomScale in Hscale; rewrite H0 in Hscale; discriminate].
  cbn [default from_option id]. cbv zeta.
  destruct (js_get matrix _) as [line|] eqn:Hline; [|discriminate].
  destruct (js_get line _) as [code|] eqn:Hcode; [|discriminate].
  destruct (callbacks !! code) as [cb|]; [|discriminate].
  intros [= <- <-]. split; [|split; reflexivity].
  exact (reached_key_has_no_NaN room mouse matrix scale line0 line code
           Hscale H0 Hline Hcode).
Qed.

(** The outcome of a call with respect to the memo: what [service_hover]
    does, by whether the matrix exists and the call is classified. *)
Lemma service_hover_cases (svc : HoverService) (last : gmap string Memo)
    (drag hover : Node) (actions : Callbacks) (room : Room) (mouse : Vector)
    (name : option string) :
  let use := default "10x10"%string name in
  let r := service_hover svc last drag hover actions room mouse name in
  ((outcome r = TypeError \/ outcome r = Missed)
   /\ dispatched r = [] /\ memo r = last
   /\ forall last',
        outcome (service_hover svc last' drag hover actions room mouse name)
        = outcome r)
  \/ (exists ctx callback,
        no_NaN ctx /\ ctx_room ctx = room /\ ctx_mouse ctx = mouse
        /\ forall last',
             service_hover svc last' drag hover actions room mouse name
             = if deepEquals (key_of drag hover actions ctx) (last' !! use)
               then {| outcome := Suppressed; dispatched := []; logged := [];
                       memo := last' |}
               else {| outcome := Invoked;
                       dispatched := callback drag hover ctx;
                       logged := [];
                       memo := <[use := key_of drag hover actions ctx]> last' |}).
Proof.
  intros use r. subst r. unfold service_hover. fold use.
  destruct (matrices svc !! use) as [matrix|]; [|left; cbn; auto].
  destruct (classify room mouse matrix (callbacks svc)) as [[ctx cb]|] eqn:Hc.
  - right. exists ctx, cb.
    destruct (classify_no_NaN _ _ _ _ _ _ Hc) as (Hn & Hr & Hm).
    split; [exact Hn|]. split; [exact Hr|]. split; [exact Hm|].
    intros last'. now apply computeHover_reached.
  - left.
    destruct (computeHover_unreached last drag hover actions room mouse matrix
                (callbacks svc) use Hc) as (Ho & Hd & Hm).
    split; [exact Ho|]. split; [exact Hd|]. split; [exact Hm|].
    intros last'. unfold classify in Hc. unfold computeHover.
    destruct (getRoomScale room matrix) as [scale|]; [|reflexivity].
    cbv zeta in *.
    destruct (js_get matrix _) as [line|]; [|reflexivity].
    destruct (js_get line _) as [code|]; [|reflexivity].
    destruct (callbacks svc !! code) as [cb|]; [discriminate|reflexivity].
Qed.

(** What a call leaves in the slot of its own matrix name once it was
    classified: a key that the call's own key equals; and every other slot
    is as it was. *)
Lemma service_hover_slot (svc : HoverService) (last : gmap string Memo)
    (drag hover : Node) (actions : Callbacks) (room : Room) (mouse : Vector)
    (name : option string) :
  let use := default "10x10"%string name in
  let r := service_hover svc last drag hover actions room mouse name in
  (forall m, m <> use -> memo r !! m = last !! m)
  /\ (forall ctx callback,
        no_NaN ctx ->
        (forall last',
           service_hover svc last' drag hover actions room mouse name
           = if deepEquals (key_of drag hover actions ctx) (last' !! use)
             then {| outcome := Suppressed; dispatched := []; logged := [];
                     memo := last' |}
             else {| outcome := Invoked;
                     dispatched := callback drag hover ctx;
                     logged := [];
                     memo := <[use := key_of drag hover actions ctx]> last' |}) ->
        deepEquals (key_of drag hover actions ctx) (memo r !! use) = true).
Proof.
  intros use r.
  pose proof (service_hover_cases svc last drag hover actions room mouse name)
    as H.
  cbv zeta in H. fold use in H. fold r in H. split.
  - destruct H as [(_ & _ & Hm & _) | (ctx & cb & _ & _ & _ & Heq)].
    + now rewrite Hm.
    + subst r. rewrite (Heq last).
      destruct (deepEquals _ _); cbn [memo]; [reflexivity|].
      intros m Hne. now apply lookup_insert_ne.
  - intros ctx cb Hn Heq. subst r. rewrite (Heq last).
    destruct (deepEquals (key_of drag hover actions ctx) (last !! use)) eqn:E;
      cbn [memo]; [exact E|].
    rewrite lookup_insert_eq. now apply deepEquals_refl.
Qed.

Lemma deepEquals_ids (a b : Memo) :
  deepEquals a (Some b) = true ->
  memo_item a = memo_item b /\ memo_hover a = memo_hover b
  /\ memo_actions a = memo_actions b.
Proof.
  unfold deepEquals. rewrite !andb_true_iff.
  intros [[[H1 H2] H3] _].
  apply String.eqb_eq in H1, H2. apply Nat.eqb_eq in H3. auto.
Qed.

(** X3.  A call of [hover] touches the memo store at most at the slot of
    its own matrix name: every other slot is left as it was, the store is
    left untouched unless an interpreter ran, and when one ran the slot
    holds a key made of the ids of the dragged and hovered nodes, the
    action-dispatch object, the room and the pointer of that call. *)
Theorem hover_memo_frame (svc : HoverService) (last : gmap string Memo)
    (drag hover : Node) (actions : Callbacks) (room : Room) (mouse : Vector)
    (name : option string) :
  let use := default "10x10"%string name in
  let r := service_hover svc last drag hover actions room mouse name in
  (forall m, m <> use -> memo r !! m = last !! m)
  /\ (outcome r <> Invoked -> memo r = last)
  /\ (outcome r = Invoked ->
      exists key, memo r !! use = Some key
        /\ memo_item key = node_id drag /\ memo_hover key = node_id hover
        /\ memo_actions key = actions
        /\ ctx_room (memo_ctx key) = room /\ ctx_mouse (memo_ctx key) = mouse).
Proof.
  intros use r.
  pose proof (service_hover_cases svc last drag hover actions room mouse name)
    as H.
  cbv zeta in H. fold use in H. fold r in H.
  destruct H as [(Ho & _ & Hm & _) | (ctx & cb & _ & Hr & Hmo & Heq)].
  - rewrite Hm. split; [reflexivity|]. split; [reflexivity|].
    intros Hi. destruct Ho as [Ho|Ho]; congruence.
  - subst r. rewrite (Heq last).
    destruct (deepEquals _ _); cbn [memo outcome].
    + split; [reflexivity|]. split; [reflexivity|]. discriminate.
    + split; [intros m Hne; now apply lookup_insert_ne|].
      split; [congruence|]. intros _.
      exists (key_of drag hover actions ctx).
      rewrite lookup_insert_eq. cbn. repeat split; assumption.
Qed.

(** X4.  The memo slots of different matrix names are independent: once
    a call was classified under one matrix name, any call under another
    matrix name in between does not disturb it, and the repeated call is
    suppressed without a dispatch. *)
Theorem memo_slots_independent (svc : HoverService) (last : gmap string Memo)
    (drag hover : Node) (actions : Callbacks) (room : Room) (mouse : Vector)
    (name : option string)
    (drag' hover' : Node) (actions' : Callbacks) (room' : Room)
    (mouse' : Vector) (name' : option string) :
  default "10x10"%string name <> default "10x10"%string name' ->
  let r1 := service_hover svc last drag hover actions room mouse name in
  let r2 := service_hover svc (memo r1) drag' hover' actions' room' mouse' name' in
  let r3 := service_hover svc (memo r2) drag hover actions room mouse name in
  (outcome r1 = Invoked \/ outcome r1 = Suppressed) ->
  outcome r3 = Suppressed /\ dispatched r3 = [] /\ memo r3 = memo r2.
Proof.
  intros Hne r1 r2 r3 Hreached.
  pose proof (service_hover_cases svc last drag hover actions room mouse name)
    as H.
  cbv zeta in H. fold r1 in H.
  destruct H as [([Ho|Ho] & _) | (ctx & cb & Hn & _ & _ & Heq)];
    [destruct Hreached; congruence .. |].
  pose proof (proj2 (service_hover_slot svc last drag hover actions room mouse
                       name) ctx cb Hn Heq) as Hslot.
  fold r1 in Hslot.
  pose proof (proj1 (service_hover_slot svc (memo r1) drag' hover' actions'
                       room' mouse' name')
                (default "10x10"%string name) Hne) as Hframe.
  fold r2 in Hframe.
  subst r3. rewrite (Heq (memo r2)), Hframe, Hslot. auto.
Qed.

Lemma memo_slots_independent_witness :
  let svc := newHoverService None None in
  let room := {| width := 100%num; height := 100%num |} in
  let mouse := {| vec_x := 50%num; vec_y := 95%num |} in
  let r1 := service_hover svc last0 (example_cell "a") (example_cell "b")
              0%nat room mouse (Some "10x10"%string) in
  let r2 := service_hover svc (memo r1) (example_cell "a") (example_row "r")
              0%nat room mouse (Some "6x6"%string) in
  let r3 := service_hover svc (memo r2) (example_cell "a") (example_cell "b")
              0%nat room mouse (Some "10x10"%string) in
  outcome r3 = Suppressed /\ dispatched r3 = [] /\ memo r3 = memo r2.
Proof.
  refine (memo_slots_independent (newHoverService None None) last0
            (example_cell "a") (example_cell "b") 0%nat
            {| width := 100%num; height := 100%num |}
            {| vec_x := 50%num; vec_y := 95%num |} (Some "10x10"%string)
            (example_cell "a") (example_row "r") 0%nat
            {| width := 100%num; height := 100%num |}
            {| vec_x := 50%num; vec_y := 95%num |} (Some "6x6"%string) _ _).
  - discriminate.
  - left. reflexivity.
Defined.

(** X5.  Each slot remembers one call only.  When two classified calls
    under the same matrix name differ in the id of the dragged node or in
    the id of the hovered node, the second one runs its interpreter, and so
    does the first one when it is made again after the second. *)
Theorem memo_holds_last_call_only (svc : HoverService)
    (last : gmap string Memo)
    (drag hover : Node) (actions : Callbacks) (room : Room) (mouse : Vector)
    (drag' hover' : Node) (actions' : Callbacks) (room' : Room)
    (mouse' : Vector) (name : option string) :
  node_id drag <> node_id drag' \/ node_id hover <> node_id hover' ->
  let r1 := service_hover svc last drag hover actions room mouse name in
  let r2 := service_hover svc (memo r1) drag' hover' actions' room' mouse' name in
  let r3 := service_hover svc (memo r2) drag hover actions room mouse name in
  (outcome r1 = Invoked \/ outcome r1 = Suppressed) ->
  (outcome r2 = Invoked \/ outcome r2 = Suppressed) ->
  outcome r2 = Invoked /\ outcome r3 = Invoked
  /\ (outcome r1 = Invoked -> dispatched r3 = dispatched r1).
Proof.
  intros Hdiff r1 r2 r3 Hreached1 Hreached2.
  set (use := default "10x10"%string name).
  pose proof (service_hover_cases svc last drag hover actions room mouse name)
    as H1.
  cbv zeta in H1. fold r1 use in H1.
  destruct H1 as [([Ho|Ho] & _) | (ctx & cb & Hn & _ & _ & Heq)];
    [destruct Hreached1; congruence .. |].
  pose proof (service_hover_cases svc (memo r1) drag' hover' actions' room'
                mouse' name) as H2.
  cbv zeta in H2. fold r2 use in H2.
  destruct H2 as [([Ho|Ho] & _) | (ctx' & cb' & Hn' & _ & _ & Heq')];
    [destruct Hreached2; congruence .. |].
  pose proof (proj2 (service_hover_slot svc last drag hover actions room mouse
                       name) ctx cb Hn Heq) as Hslot.
  fold r1 use in Hslot.
  assert (Hkeys : forall k,
            deepEquals (key_of drag hover actions ctx) (Some k) = true ->
            deepEquals (key_of drag' hover' actions' ctx') (Some k) = true ->
            False).
  { intros k Ha Hb. apply deepEquals_ids in Ha, Hb. cbn in Ha, Hb.
    destruct Ha as (A1 & A2 & A3), Hb as (B1 & B2 & B3).
    destruct Hdiff as [D|D]; apply D; congruence. }
  assert (E2 : deepEquals (key_of drag' hover' actions' ctx') (memo r1 !! use)
               = false).
  { destruct (memo r1 !! use) as [k|] eqn:Ek; [|reflexivity].
    destruct (deepEquals (key_of drag' hover' actions' ctx') (Some k)) eqn:E;
      [|reflexivity].
    exfalso. exact (Hkeys k Hslot E). }
  assert (Hr2 : r2 = {| outcome := Invoked;
                        dispatched := cb' drag' hover' ctx'; logged := [];
                        memo := <[use := key_of drag' hover' actions' ctx']>
                                  (memo r1) |}).
  { subst r2. rewrite (Heq' (memo r1)). now rewrite E2. }
  assert (E3 : deepEquals (key_of drag hover actions ctx) (memo r2 !! use)
               = false).
  { rewrite Hr2. cbn [memo]. rewrite lookup_insert_eq.
    destruct (deepEquals (key_of drag hover actions ctx)
                (Some (key_of drag' hover' actions' ctx'))) eqn:E;
      [|reflexivity].
    exfalso. apply (Hkeys _ E). now apply deepEquals_refl. }
  split; [now rewrite Hr2|].
  subst r3. rewrite (Heq (memo r2)), E3. cbn [outcome dispatched].
  split; [reflexivity|].
  subst r1. rewrite (Heq last).
  destruct (deepEquals (key_of drag hover actions ctx) (last !! use));
    cbn [outcome dispatched]; intros Hi; [discriminate Hi | reflexivity].
Qed.

Lemma memo_holds_last_call_only_witness :
  let svc := newHoverService None None in
  let room := {| width := 100%num; height := 100%num |} in
  let mouse := {| vec_x := 50%num; vec_y := 95%num |} in
  let r1 := service_hover svc last0 (example_cell "a") (example_cell "b")
              0%nat room mouse None in
  let r2 := service_hover svc (memo r1) (example_cell "c") (example_cell "b")
              0%nat room mouse None in
  let r3 := service_hover svc (memo r2) (example_cell "a") (example_cell "b")
              0%nat room mouse None in
  outcome r2 = Invoked /\ outcome r3 = Invoked
  /\ (outcome r1 = Invoked -> dispatched r3 = dispatched r1).
Proof.
  refine (memo_holds_last_call_only (newHoverService None None) last0
            (example_cell "a") (example_cell "b") 0%nat
            {| width := 100%num; height := 100%num |}
            {| vec_x := 50%num; vec_y := 95%num |}
            (example_cell "c") (example_cell "b") 0%nat
            {| width := 100%num; height := 100%num |}
            {| vec_x := 50%num; vec_y := 95%num |} None _ _ _).
  - left. discriminate.
  - left. reflexivity.
  - left. reflexivity.
Defined.

(** The clamp of the floor of any number but [NaN] is an index below the
    dimension; [NaN] passes through both. *)
Lemma clamp_floor_index (a : num) (n : nat) :
  a <> NaN -> n <> 0%nat ->
  exists i, index (clamp (floor a) n) = Some i /\ (i < n)%nat.
Proof.
  intros Ha Hn.
  assert (Hint : exists z, val_int (clamp (floor a) n) z
                           /\ (0 <= z < Z.of_nat n)%Z).
  { destruct a as [q| | |]; [| | |congruence].
    - exists (Z.max 0 (Z.min (Qfloor q) (Z.of_nat n - 1))). split; [|lia].
      apply clamp_val_int; [apply val_int_of_Z | assumption].
    - exists (Z.of_nat n - 1)%Z. split; [|lia].
      unfold clamp. cbn. eexists. split; [reflexivity|].
      rewrite !Qred_correct. unfold Z.sub.
      rewrite inject_Z_plus, inject_Z_opp. reflexivity.
    - exists 0%Z. split; [|lia]. apply (val_int_of_Z 0). }
  destruct Hint as (z & Hz & Hr).
  exists (Z.to_nat z). split; [apply val_int_index; [assumption | lia] | lia].
Qed.

Lemma clamp_floor_NaN (n : nat) : clamp (floor NaN) n = NaN.
Proof. reflexivity. Qed.

Lemma rectangular_spec (matrix : Matrix) (n : nat) :
  rectangular matrix n = true ->
  forall i line, matrix !! i = Some line -> length line = n.
Proof.
  unfold rectangular. rewrite forallb_forall. intros H i line Hl.
  apply Nat.eqb_eq, H. apply list_elem_of_In. now apply list_elem_of_lookup_2 with i.
Qed.

Lemma registered_spec (callbacks : gmap Z Callback) (matrix : Matrix) :
  registered callbacks matrix = true ->
  forall i line j code,
    matrix !! i = Some line -> line !! j = Some code ->
    exists callback, callbacks !! code = Some callback.
Proof.
  unfold registered. rewrite forallb_forall. intros H i line j code Hl Hc.
  assert (Hin : In line matrix)
    by (apply list_elem_of_In; now apply list_elem_of_lookup_2 with i).
  pose proof (H line Hin) as Hline. rewrite forallb_forall in Hline.
  assert (Hin' : In code line)
    by (apply list_elem_of_In; now apply list_elem_of_lookup_2 with j).
  specialize (Hline code Hin').
  destruct (callbacks !! code) as [cb|]; [eauto | discriminate].
Qed.

(** A finite pointer over a room without zero or [NaN] extent, on a
    rectangular matrix all of whose codes are registered, is classified. *)
Lemma registered_matrix_classified (callbacks : gmap Z Callback) (room : Room)
    (mx my : Q) (matrix : Matrix) (n : nat) :
  matrix <> [] -> n <> 0%nat ->
  rectangular matrix n = true -> registered callbacks matrix = true ->
  truthy (width room) = true -> truthy (height room) = true ->
  exists ctx callback,
    classify room {| vec_x := Fin mx; vec_y := Fin my |} matrix callbacks
    = Some (ctx, callback).
Proof.
  intros Hne Hn Hrect Hreg Hw Hh.
  destruct matrix as [|line0 rest]; [congruence|].
  set (matrix := line0 :: rest) in *.
  assert (Hlen0 : length line0 = n)
    by (apply (rectangular_spec matrix n Hrect 0%nat); reflexivity).
  assert (Hrows : length matrix <> 0%nat) by discriminate.
  destruct (clamped_index (width room) n mx Hw Hn) as (j & Hj & Hjn).
  destruct (clamped_index (height room) (length matrix) my Hh Hrows)
    as (i & Hi & Hin).
  destruct (lookup_lt_is_Some_2 matrix i Hin) as [line Hline].
  pose proof (rectangular_spec matrix n Hrect i line Hline) as Hll.
  destruct (lookup_lt_is_Some_2 line j) as [code Hcode]; [lia|].
  destruct (registered_spec callbacks matrix Hreg i line j code Hline Hcode)
    as [cb Hcb].
  unfold classify, getRoomScale. cbn [lookup list_lookup matrix].
  cbn [default from_option id]. rewrite Hlen0. cbv zeta.
  unfold js_get, clampedCell, getMouseHoverCell. cbn [row cell vec_x vec_y].
  fold matrix. rewrite Hi, Hline, Hj, Hcode, Hcb. eauto.
Qed.

(** X2.  With the default interpreters and any of the three default
    matrices (also when the matrix name is left out), a finite pointer
    over a room whose width and height are neither zero nor [NaN] is
    always classified: the call neither raises nor logs a miss, whatever
    the nodes and wherever the pointer is; it runs an interpreter or is a
    memo hit. *)
Theorem default_service_always_classifies (last : gmap string Memo)
    (drag hover : Node) (actions : Callbacks) (room : Room) (mx my : Q)
    (name : option string) :
  In name [None; Some "6x6"%string; Some "10x10"%string;
           Some "10x10-no-inline"%string] ->
  truthy (width room) = true -> truthy (height room) = true ->
  let r := service_hover (newHoverService None None) last drag hover actions
             room {| vec_x := Fin mx; vec_y := Fin my |} name in
  (outcome r = Invoked \/ outcome r = Suppressed) /\ logged r = [].
Proof.
  intros Hname Hw Hh r.
  assert (Hmx : exists matrix n,
            matrices (newHoverService None None) !! default "10x10"%string name
            = Some matrix
            /\ matrix <> [] /\ n <> 0%nat /\ rectangular matrix n = true
            /\ registered defaultCallbacks matrix = true).
  { destruct Hname as [<-|[<-|[<-|[<-|[]]]]].
    - exists matrix_10x10, 10%nat. repeat split; try reflexivity; discriminate.
    - exists matrix_6x6, 6%nat. repeat split; try reflexivity; discriminate.
    - exists matrix_10x10, 10%nat. repeat split; try reflexivity; discriminate.
    - exists matrix_10x10_no_inline, 10%nat.
      repeat split; try reflexivity; discriminate. }
  destruct Hmx as (matrix & n & Hlook & Hne & Hn & Hrect & Hreg).
  destruct (registered_matrix_classified defaultCallbacks room mx my matrix n
              Hne Hn Hrect Hreg Hw Hh) as (ctx & cb & Hc).
  subst r. unfold service_hover. rewrite Hlook.
  change (callbacks (newHoverService None None)) with defaultCallbacks.
  rewrite (computeHover_reached _ _ _ _ _ _ _ _ _ ctx cb Hc).
  destruct (deepEquals _ _); cbn; auto.
Qed.

Lemma default_service_always_classifies_witness :
  let r := service_hover (newHoverService None None) last0
             (example_cell "a") (example_row "b") 0%nat
             {| width := Fin (-40); height := PInf |}
             {| vec_x := Fin 1000; vec_y := Fin (-3) |}
             (Some "6x6"%string) in
  (outcome r = Invoked \/ outcome r = Suppressed) /\ logged r = [].
Proof.
  apply (default_service_always_classifies last0 (example_cell "a")
           (example_row "b") 0%nat {| width := Fin (-40); height := PInf |}
           1000 (-3) (Some "6x6"%string)).
  - right. left. reflexivity.
  - reflexivity.
  - reflexivity.
Defined.

(** X6.  [hover] raises a [TypeError] in exactly three situations: the
    service has no matrix of the name in use, the matrix has no row, or
    the quotient that locates the row, [mouse.y / (room.height / rows)],
    is [NaN].  When it raises, nothing was dispatched or logged and the
    memo store is as before. *)
Theorem hover_TypeError_iff (svc : HoverService) (last : gmap string Memo)
    (drag hover : Node) (actions : Callbacks) (room : Room) (mouse : Vector)
    (name : option string) :
  let r := service_hover svc last drag hover actions room mouse name in
  (outcome r = TypeError <->
   match matrices svc !! default "10x10"%string name with
   | None => True
   | Some matrix =>
       matrix = []
       \/ (vec_y mouse / (height room / of_nat (length matrix)))%num = NaN
   end)
  /\ (outcome r = TypeError ->
      dispatched r = [] /\ logged r = [] /\ memo r = last).
Proof.
  intros r. subst r. unfold service_hover.
  destruct (matrices svc !! default "10x10"%string name) as [matrix|];
    [|cbn; tauto].
  destruct matrix as [|line0 rest]; [cbn; tauto|].
  set (matrix := line0 :: rest).
  set (r := computeHover last drag hover actions room mouse matrix
              (callbacks svc) (default "10x10"%string name)).
  assert (Hrows : length matrix <> 0%nat) by (exact (Nat.neq_succ_0 _)).
  assert (Hr : (vec_y mouse / (height room / of_nat (length matrix)))%num <> NaN
               /\ outcome r <> TypeError
               \/ (vec_y mouse / (height room / of_nat (length matrix)))%num = NaN
                  /\ r = {| outcome := TypeError; dispatched := [];
                            logged := []; memo := last |}).
  { subst r. unfold computeHover, getRoomScale.
    cbn [lookup list_lookup matrix]. cbn [default from_option id].
    cbv zeta. fold matrix.
    unfold js_get at 1. unfold clampedCell, getMouseHoverCell.
    cbn [row cell vec_x vec_y].
    destruct (vec_y mouse / (height room / of_nat (length matrix)))%num
      as [q| | |] eqn:Eq; [left | left | left | right; split; reflexivity].
    all: split; [discriminate|].
    all: match goal with
         | |- context [index (clamp (floor ?a) ?n)] =>
             let H := fresh "H" in
             assert (H : a <> NaN) by (intros Hnan; discriminate Hnan);
             destruct (clamp_floor_index a n H Hrows) as (i & Hi & Hlt)
         end;
         rewrite Hi; cbv beta iota;
         destruct (lookup_lt_is_Some_2 matrix i Hlt) as [line Hline];
         rewrite Hline; cbv beta iota;
         destruct (js_get line _) as [code|];
         [destruct (callbacks svc !! code) as [cb|];
          [destruct (deepEquals _ _)|]|];
         cbn [outcome]; discriminate. }
  destruct Hr as [[Hq Ho] | [Hq ->]].
  - split; [split|]; [intros; contradiction | | intros; contradiction].
    intros [H|H]; [unfold matrix in H; discriminate H | contradiction].
  - cbn [outcome dispatched logged memo]. tauto.
Qed.

Lemma hover_TypeError_iff_witness :
  let r := service_hover (newHoverService None None) last0
             (example_cell "a") (example_cell "b") 0%nat
             {| width := 100%num; height := 0%num |}
             {| vec_x := 10%num; vec_y := 0%num |} None in
  outcome r = TypeError
  /\ dispatched r = [] /\ logged r = [] /\ memo r = last0.
Proof.
  pose proof (hover_TypeError_iff (newHoverService None None) last0
                (example_cell "a") (example_cell "b") 0%nat
                {| width := 100%num; height := 0%num |}
                {| vec_x := 10%num; vec_y := 0%num |} None) as [Hiff Hframe].
  assert (Ho : outcome (service_hover (newHoverService None None) last0
                          (example_cell "a") (example_cell "b") 0%nat
                          {| width := 100%num; height := 0%num |}
                          {| vec_x := 10%num; vec_y := 0%num |} None)
               = TypeError).
  { apply Hiff. right. reflexivity. }
  split; [exact Ho | exact (Hframe Ho)].
Defined.

(* ================================================================== *)
(** ** The bands of the geometric regime *)
(* ================================================================== *)

Lemma pow2_pos (i : nat) : (0 < inject_Z (2 ^ Z.of_nat i))%Q.
Proof.
  change 0%Q with (inject_Z 0). rewrite <- Zlt_Qlt.
  apply Z.pow_pos_nonneg; lia.
Qed.

Lemma pow2_succ (i : nat) :
  (inject_Z (2 ^ Z.of_nat (S i)) == 2 * inject_Z (2 ^ Z.of_nat i))%Q.
Proof.
  rewrite Nat2Z.inj_succ, Z.pow_succ_r by lia.
  rewrite inject_Z_mult. reflexivity.
Qed.

Lemma half_pow (spare : Q) (i : nat) :
  (spare / inject_Z (2 ^ Z.of_nat (S i))
   == spare / inject_Z (2 ^ Z.of_nat i) / 2)%Q.
Proof.
  pose proof (pow2_pos i) as H. rewrite pow2_succ.
  generalize dependent (inject_Z (2 ^ Z.of_nat i)). intros X H.
  field. lra.
Qed.

Lemma band_start_0 (spare : Q) : (band_start spare 0 == 0)%Q.
Proof.
  unfold band_start.
  change (inject_Z (2 ^ Z.of_nat 0)) with 1%Q.
  change (inject_Z (2 * Z.of_nat 0)) with 0%Q. field.
Qed.

Lemma band_start_succ (spare : Q) (i : nat) :
  (band_start spare (S i)
   == band_start spare i + spare / inject_Z (2 ^ Z.of_nat (S i)) + 2)%Q.
Proof.
  unfold band_start. rewrite (half_pow spare i).
  rewrite Nat2Z.inj_succ.
  replace (2 * Z.succ (Z.of_nat i))%Z with (2 * Z.of_nat i + 2)%Z by lia.
  rewrite inject_Z_plus. change (inject_Z 2) with 2%Q.
  pose proof (pow2_pos i) as H.
  generalize dependent (inject_Z (2 ^ Z.of_nat i)).
  generalize (inject_Z (2 * Z.of_nat i)). intros Y X H.
  field. lra.
Qed.

Lemma band_start_step (spare : Q) (i : nat) :
  (0 < spare)%Q -> (band_start spare i < band_start spare (S i))%Q.
Proof.
  intros Hs. rewrite band_start_succ.
  assert (0 < spare / inject_Z (2 ^ Z.of_nat (S i)))%Q.
  { apply Qlt_shift_div_l; [apply pow2_pos | lra]. }
  lra.
Qed.

Lemma band_start_mono (spare : Q) (i j : nat) :
  (0 < spare)%Q -> (i <= j)%nat -> (band_start spare i <= band_start spare j)%Q.
Proof.
  intros Hs Hij. induction Hij as [|j Hij IH]; [lra|].
  pose proof (band_start_step spare j Hs). lra.
Qed.

Lemma band_start_below_size (spare : Q) (i : nat) :
  (0 < spare)%Q ->
  (band_start spare i < spare + inject_Z (2 * Z.of_nat i))%Q.
Proof.
  intros Hs. unfold band_start.
  assert (0 < spare / inject_Z (2 ^ Z.of_nat i))%Q.
  { apply Qlt_shift_div_l; [apply pow2_pos | lra]. }
  lra.
Qed.

(** The loop, entered at iteration [i] with the values that [i] halvings
    of [spare] leave in [steps] and [current], on a position of band [k]. *)
Lemma level_loop_in_band (L : Z) (spare p : Q) (k : nat) :
  (0 < spare)%Q -> (Z.of_nat k <= L)%Z ->
  (band_start spare k <= p)%Q -> (p < band_start spare (S k))%Q ->
  forall fuel i steps s c,
    steps !! i = Some (Fin s) -> length steps = S i ->
    (s == spare - spare / inject_Z (2 ^ Z.of_nat i))%Q ->
    (c == spare / inject_Z (2 ^ Z.of_nat i))%Q ->
    (i <= k)%nat -> (Z.of_nat (i + fuel) = L + 1)%Z ->
    level_loop (of_Z L) (Fin p) fuel i steps (Fin c) = of_nat k.
Proof.
  intros Hs HkL Hlo Hhi.
  induction fuel as [|fuel IH]; intros i steps s c Hst Hlen Hsi Hci Hik Hfuel;
    [lia|].
  rewrite (level_loop_step _ _ _ _ _ _ (Fin s) Hst Hlen).
  change (Fin c / 2)%num with (Fin (Qred (c / 2))).
  change (Fin s + Fin (Qred (c / 2)))%num with (Fin (Qred (s + Qred (c / 2)))).
  set (s' := Qred (s + Qred (c / 2))).
  assert (Hs' : (s' == spare - spare / inject_Z (2 ^ Z.of_nat (S i)))%Q).
  { subst s'. rewrite !Qred_correct, Hsi, Hci, (half_pow spare i).
    pose proof (pow2_pos i) as HX.
    generalize dependent (inject_Z (2 ^ Z.of_nat i)). intros X _ _ HX.
    field. lra. }
  assert (Hc' : (Qred (c / 2) == spare / inject_Z (2 ^ Z.of_nat (S i)))%Q).
  { rewrite Qred_correct, Hci, (half_pow spare i). reflexivity. }
  assert (Hb : forall (j : nat) (t : Q),
            (t == spare - spare / inject_Z (2 ^ Z.of_nat j))%Q ->
            exists b, (Fin t + of_nat j * 2)%num = Fin b
                      /\ (b == band_start spare j)%Q).
  { intros j t Ht. eexists. split; [reflexivity|].
    rewrite !Qred_correct, Ht. unfold band_start.
    rewrite inject_Z_mult. change (inject_Z 2) with 2%Q. ring. }
  destruct (Hb i s Hsi) as (b & -> & Hbi).
  destruct (Hb (S i) s' Hs') as (b' & -> & Hbi').
  destruct (Nat.eq_dec i k) as [->|Hne].
  - assert (E1 : (Fin p >=? Fin b)%num = true)
      by (rewrite geb_leb; apply leb_fin; lra).
    assert (E2 : (Fin p <? Fin b')%num = true) by (apply ltb_fin; lra).
    now rewrite E1, E2.
  - assert (E2 : (Fin p <? Fin b')%num = false).
    { destruct (Fin p <? Fin b')%num eqn:E; [|reflexivity].
      apply ltb_fin in E.
      pose proof (band_start_mono spare (S i) k Hs ltac:(lia)). lra. }
    rewrite E2, andb_false_r.
    apply (IH (S i) _ s').
    + now apply list_lookup_middle.
    + rewrite length_app; cbn; lia.
    + exact Hs'.
    + exact Hc'.
    + lia.
    + lia.
Qed.

(** The loop on a position that no remaining band contains. *)
Lemma level_loop_in_no_band (L : Z) (spare p : Q) :
  forall fuel i steps s c,
    steps !! i = Some (Fin s) -> length steps = S i ->
    (s == spare - spare / inject_Z (2 ^ Z.of_nat i))%Q ->
    (c == spare / inject_Z (2 ^ Z.of_nat i))%Q ->
    (forall j, (i <= j < i + fuel)%nat ->
       (p < band_start spare j \/ band_start spare (S j) <= p)%Q) ->
    level_loop (of_Z L) (Fin p) fuel i steps (Fin c) = of_Z L.
Proof.
  induction fuel as [|fuel IH]; intros i steps s c Hst Hlen Hsi Hci Hout;
    [reflexivity|].
  rewrite (level_loop_step _ _ _ _ _ _ (Fin s) Hst Hlen).
  change (Fin c / 2)%num with (Fin (Qred (c / 2))).
  change (Fin s + Fin (Qred (c / 2)))%num with (Fin (Qred (s + Qred (c / 2)))).
  set (s' := Qred (s + Qred (c / 2))).
  assert (Hs' : (s' == spare - spare / inject_Z (2 ^ Z.of_nat (S i)))%Q).
  { subst s'. rewrite !Qred_correct, Hsi, Hci, (half_pow spare i).
    pose proof (pow2_pos i) as HX.
    generalize dependent (inject_Z (2 ^ Z.of_nat i)). intros X _ _ HX.
    field. lra. }
  assert (Hc' : (Qred (c / 2) == spare / inject_Z (2 ^ Z.of_nat (S i)))%Q).
  { rewrite Qred_correct, Hci, (half_pow spare i). reflexivity. }
  assert (Hb : forall (j : nat) (t : Q),
            (t == spare - spare / inject_Z (2 ^ Z.of_nat j))%Q ->
            exists b, (Fin t + of_nat j * 2)%num = Fin b
                      /\ (b == band_start spare j)%Q).
  { intros j t Ht. eexists. split; [reflexivity|].
    rewrite !Qred_correct, Ht. unfold band_start.
    rewrite inject_Z_mult. change (inject_Z 2) with 2%Q. ring. }
  destruct (Hb i s Hsi) as (b & -> & Hbi).
  destruct (Hb (S i) s' Hs') as (b' & -> & Hbi').
  assert (E : (Fin p >=? Fin b)%num && (Fin p <? Fin b')%num = false).
  { destruct (Hout i ltac:(lia)) as [Hlt|Hge].
    - destruct (Fin p >=? Fin b)%num eqn:E1; [|reflexivity].
      rewrite geb_leb in E1. apply leb_fin in E1. exfalso. lra.
    - destruct (Fin p <? Fin b')%num eqn:E2; [|apply andb_false_r].
      apply ltb_fin in E2. exfalso. lra. }
  rewrite E.
  apply (IH (S i) _ s').
  - now apply list_lookup_middle.
  - rewrite length_app; cbn; lia.
  - exact Hs'.
  - exact Hc'.
  - intros j Hj. apply Hout. lia.
Qed.

(** The bands of the geometric regime in closed form, in the exact
    arithmetic of this model (a position next to a band boundary may fall
    on its other side once the sums are rounded).  With
    [spare = size - 2 * (levels + 1)], band [k] starts at
    [spare - spare / 2^k + 2 * k].  For a non-negative integer [levels]
    and a finite size above [2 * (levels + 1)], a position of band
    [k <= levels] gets level [k]; position [0] gets level [0]; and a
    negative position, a position at or beyond the end of the last band,
    and in particular every position at or beyond [size], gets [levels]. *)
Lemma computeLevel_in_bands (size p : Q) (levels : Z) :
  (0 <= levels)%Z ->
  (Fin size <=? (of_Z levels + 1) * 2)%num = false ->
  let spare := (size - 2 * (inject_Z levels + 1))%Q in
  (forall k : nat,
     (Z.of_nat k <= levels)%Z ->
     (band_start spare k <= p)%Q -> (p < band_start spare (S k))%Q ->
     computeLevel (Fin size) levels (Fin p) = of_nat k)
  /\ computeLevel (Fin size) levels 0%num = 0%num
  /\ ((p < 0)%Q \/ (band_start spare (Z.to_nat (levels + 1)) <= p)%Q ->
      computeLevel (Fin size) levels (Fin p) = of_Z levels)
  /\ ((size <= p)%Q -> computeLevel (Fin size) levels (Fin p) = of_Z levels).
Proof.
  intros Hl Hreg spare.
  assert (Hspare : (0 < spare)%Q).
  { subst spare.
    destruct (Qlt_le_dec (2 * (inject_Z levels + 1)) size) as [|Hle]; [lra|].
    exfalso.
    assert (E : (Fin size <=? (of_Z levels + 1) * 2)%num = true).
    { change ((of_Z levels + 1) * 2)%num
        with (Fin (Qred (Qred (inject_Z levels + 1) * 2))).
      apply leb_fin. rewrite !Qred_correct. lra. }
    congruence. }
  assert (Hcur : exists c0,
            (Fin size - (of_Z levels + 1) * 2)%num = Fin c0
            /\ (c0 == spare / inject_Z (2 ^ Z.of_nat 0))%Q).
  { eexists. split; [reflexivity|].
    change (inject_Z (2 ^ Z.of_nat 0)) with 1%Q.
    subst spare. rewrite !Qred_correct. field. }
  destruct Hcur as (c0 & Hc0 & Hc0eq).
  assert (Hs0 : (0 == spare - spare / inject_Z (2 ^ Z.of_nat 0))%Q).
  { change (inject_Z (2 ^ Z.of_nat 0)) with 1%Q. field. }
  assert (Hband : forall (q : Q) (k : nat),
            (Z.of_nat k <= levels)%Z ->
            (band_start spare k <= q)%Q -> (q < band_start spare (S k))%Q ->
            computeLevel (Fin size) levels (Fin q) = of_nat k).
  { intros q k Hk Hlo Hhi. unfold computeLevel. rewrite Hreg, Hc0.
    apply (level_loop_in_band levels spare q k Hspare Hk Hlo Hhi _ 0%nat
             [0%num] 0%Q c0); auto; lia. }
  assert (Hnone : (p < 0)%Q \/ (band_start spare (Z.to_nat (levels + 1)) <= p)%Q ->
                  computeLevel (Fin size) levels (Fin p) = of_Z levels).
  { intros Hout. unfold computeLevel. rewrite Hreg, Hc0.
    apply (level_loop_in_no_band levels spare p _ 0%nat [0%num] 0%Q c0); auto.
    intros j Hj. destruct Hout as [Hneg|Hfar].
    - left. pose proof (band_start_mono spare 0 j Hspare ltac:(lia)).
      pose proof (band_start_0 spare). lra.
    - right.
      pose proof (band_start_mono spare (S j) (Z.to_nat (levels + 1)) Hspare
                    ltac:(lia)).
      lra. }
  split; [exact (Hband p)|]. split; [|split; [exact Hnone|]].
  - apply (Hband 0%Q 0%nat); [lia | |].
    + pose proof (band_start_0 spare). lra.
    + pose proof (band_start_step spare 0 Hspare).
      pose proof (band_start_0 spare). lra.
  - intros Hfar. apply Hnone. right.
    pose proof (band_start_below_size spare (Z.to_nat (levels + 1)) Hspare) as Hb.
    replace (2 * Z.of_nat (Z.to_nat (levels + 1)))%Z with (2 * (levels + 1))%Z
      in Hb by lia.
    rewrite inject_Z_mult, inject_Z_plus in Hb.
    change (inject_Z 2) with 2%Q in Hb. change (inject_Z 1) with 1%Q in Hb.
    subst spare. lra.
Qed.

(** X7.  The edges of the geometric regime.  For a non-negative integer
    [levels] and a finite size above [2 * (levels + 1)]: a negative
    position lies below every band, so the loop falls through and the
    answer is [levels]; a position from [0] up to, not including, [2] lies
    in the first band and gets level [0]; a position at or beyond [size]
    lies past the last band and gets [levels] again. *)
Theorem computeLevel_edges (size p : Q) (levels : Z) :
  (0 <= levels)%Z ->
  (Fin size <=? (of_Z levels + 1) * 2)%num = false ->
  ((p < 0)%Q -> computeLevel (Fin size) levels (Fin p) = of_Z levels)
  /\ ((0 <= p)%Q -> (p < 2)%Q ->
      computeLevel (Fin size) levels (Fin p) = 0%num)
  /\ ((size <= p)%Q -> computeLevel (Fin size) levels (Fin p) = of_Z levels).
Proof.
  intros Hl Hreg.
  set (spare := (size - 2 * (inject_Z levels + 1))%Q).
  assert (Hspare : (0 < spare)%Q).
  { subst spare.
    destruct (Qlt_le_dec (2 * (inject_Z levels + 1)) size) as [|Hle]; [lra|].
    exfalso.
    assert (E : (Fin size <=? (of_Z levels + 1) * 2)%num = true).
    { change ((of_Z levels + 1) * 2)%num
        with (Fin (Qred (Qred (inject_Z levels + 1) * 2))).
      apply leb_fin. rewrite !Qred_correct. lra. }
    congruence. }
  destruct (computeLevel_in_bands size p levels Hl Hreg)
    as (Hband & _ & Hout & Hfar).
  fold spare in Hband, Hout.
  split; [|split].
  - intros Hneg. apply Hout. now left.
  - intros H0 H2. apply (Hband 0%nat); [lia | |].
    + pose proof (band_start_0 spare). lra.
    + pose proof (band_start_succ spare 0) as Hs.
      pose proof (band_start_0 spare) as Hz.
      assert (0 < spare / inject_Z (2 ^ Z.of_nat 1))%Q
        by (apply Qlt_shift_div_l; [apply pow2_pos | lra]).
      lra.
  - exact Hfar.
Qed.

Lemma computeLevel_edges_witness :
  computeLevel (Fin 100) 3 (Fin (-1)) = of_Z 3
  /\ computeLevel (Fin 100) 3 (Fin (3 # 2)) = 0%num
  /\ computeLevel (Fin 100) 3 (Fin 100) = of_Z 3.
Proof.
  destruct (computeLevel_edges 100 (-1) 3) as (Hneg & _); [lia | reflexivity |].
  destruct (computeLevel_edges 100 (3 # 2) 3) as (_ & Hlow & _);
    [lia | reflexivity |].
  destruct (computeLevel_edges 100 100 3) as (_ & _ & Hfar);
    [lia | reflexivity |].
  split; [|split].
  - apply Hneg. reflexivity.
  - apply Hlow; [vm_compute; discriminate | reflexivity].
  - apply Hfar. vm_compute. discriminate.
Defined.

(* ================================================================== *)
(** ** Further properties of the axis wrappers and interpreters *)
(* ================================================================== *)

Lemma Qred_inject_Z (z : Z) : Qred (inject_Z z) = inject_Z z.
Proof.
  unfold Qred, inject_Z.
  pose proof (Z.ggcd_gcd z 1) as Hg.
  pose proof (Z.ggcd_correct_divisors z 1) as Hd.
  destruct (Z.ggcd z 1) as [g [a b]]. cbn in *.
  rewrite Z.gcd_1_r in Hg. subst g. destruct Hd as [Ha Hb].
  assert (Ea : a = z) by lia. assert (Eb : b = 1%Z) by lia.
  rewrite Ea, Eb. reflexivity.
Qed.

Lemma sub_of_Z (a b : Z) : (of_Z a - of_Z b)%num = of_Z (a - b).
Proof.
  unfold sub, opp, add, of_Z.
  change (- inject_Z b)%Q with (inject_Z (- b)).
  rewrite Qred_inject_Z. f_equal.
  rewrite <- (Qred_inject_Z (a - b)). apply Qred_complete.
  unfold Z.sub. rewrite inject_Z_plus. reflexivity.
Qed.

Lemma eqb_of_Z (a b : Z) : eqb (of_Z a) (of_Z b) = (a =? b)%Z.
Proof.
  unfold eqb. rewrite cmp_of_Z.
  destruct (Z.eqb_spec a b), (Z.compare_spec a b); try reflexivity; lia.
Qed.

(** What the two wrappers do to a level [a] of [[0, level]]: the bump of
    an inline target and the inversion. *)
Lemma adjusted_level (inl inv : bool) (level a : Z) :
  (0 <= a <= level)%Z ->
  exists k : Z,
    (let at_ := if inl && eqb (of_Z a) 0%num then 1%num else of_Z a in
     if inv then (of_Z level - at_)%num else at_) = of_Z k
    /\ (inl = false -> (0 <= k <= level)%Z)
    /\ (inl = true -> inv = false -> (1 <= k <= Z.max 1 level)%Z)
    /\ (inl = true -> inv = true ->
        (level - Z.max 1 level <= k <= level - 1)%Z).
Proof.
  intros Ha. cbv zeta.
  change 0%num with (of_Z 0). change 1%num with (of_Z 1).
  rewrite eqb_of_Z.
  destruct inl, inv; cbn [andb];
    destruct (Z.eqb_spec a 0); rewrite ?sub_of_Z;
    eexists; (split; [reflexivity|]);
    repeat split; intros; try discriminate; lia.
Qed.

(** X8.  Over a hovered node that is not a row, with a non-negative
    level limit and a scale in the geometric regime, [computeVertical] and
    [computeHorizontal] answer an integer.  For a target that is not
    inline it lies in [[0, level]], with or without inversion.  For an
    inline target level [0] is never answered without inversion (the
    answer lies in [[1, max(1, level)]]), and the limit itself is never
    answered with inversion (the answer lies in
    [[level - max(1, level), level - 1]], which is [-1] when the limit is
    [0]). *)
Theorem axis_level_range (level : Z) (mouse : Vector) (hover : Node)
    (position : MatrixIndex) (scale : Vector) (inv : bool) :
  isRow hover = false -> (0 <= level)%Z ->
  ((vec_y scale <=? (of_Z level + 1) * 2)%num = false ->
   exists k : Z,
     computeVertical level mouse hover position scale inv = of_Z k
     /\ (is_inline hover = false -> (0 <= k <= level)%Z)
     /\ (is_inline hover = true -> inv = false -> (1 <= k <= Z.max 1 level)%Z)
     /\ (is_inline hover = true -> inv = true ->
         (level - Z.max 1 level <= k <= level - 1)%Z))
  /\ ((vec_x scale <=? (of_Z level + 1) * 2)%num = false ->
      exists k : Z,
        computeHorizontal mouse position hover scale level inv = of_Z k
        /\ (is_inline hover = false -> (0 <= k <= level)%Z)
        /\ (is_inline hover = true -> inv = false ->
            (1 <= k <= Z.max 1 level)%Z)
        /\ (is_inline hover = true -> inv = true ->
            (level - Z.max 1 level <= k <= level - 1)%Z)).
Proof.
  intros Hrow Hl. split; intros Hreg.
  - unfold computeVertical. rewrite Hrow.
    destruct (computeLevel_geometric_range (vec_y scale) level
                (vec_y (relativeMousePosition mouse position scale)) Hl Hreg)
      as (a & -> & Ha).
    exact (adjusted_level (is_inline hover) inv level a Ha).
  - unfold computeHorizontal. rewrite Hrow.
    destruct (computeLevel_geometric_range (vec_x scale) level
                (vec_x (relativeMousePosition mouse position scale)) Hl Hreg)
      as (a & -> & Ha).
    exact (adjusted_level (is_inline hover) inv level a Ha).
Qed.

Lemma axis_level_range_witness :
  exists k : Z,
    computeVertical 0 {| vec_x := 3%num; vec_y := 4%num |}
      (example_inline_cell "b") {| cell := 0%num; row := 0%num |}
      {| vec_x := 10%num; vec_y := 10%num |} true = of_Z k
    /\ (0 - Z.max 1 0 <= k <= 0 - 1)%Z.
Proof.
  destruct (proj1 (axis_level_range 0 {| vec_x := 3%num; vec_y := 4%num |}
                     (example_inline_cell "b") {| cell := 0%num; row := 0%num |}
                     {| vec_x := 10%num; vec_y := 10%num |} true
                     eq_refl ltac:(lia)) eq_refl)
    as (k & Hk & _ & _ & Hinv).
  exists k. split; [exact Hk | exact (Hinv eq_refl eq_refl)].
Defined.

Ltac table_cases H :=
  apply elem_of_list_to_map_2 in H; unfold callback_table in H;
  repeat (apply elem_of_cons in H as [H|H]; [injection H as -> -> | ]);
  [ .. | now apply elem_of_nil in H ].

(** X9.  Over a hovered row only the corner zones look at the pointer:
    every other default interpreter dispatches the same call whatever the
    context.  The ancestor zones [BA], [LA] and [RA] then dispatch
    [below], [leftOf] and [rightOf] at the row's limit for that
    direction. *)
Theorem row_dispatch_ignores_pointer (item hover : Node) (ctx ctx' : Context) :
  isRow hover = true ->
  (forall code callback,
     defaultCallbacks !! code = Some callback -> is_corner code = false ->
     callback item hover ctx = callback item hover ctx')
  /\ (exists on_below on_left on_right,
        defaultCallbacks !! c.BA = Some on_below
        /\ defaultCallbacks !! c.LA = Some on_left
        /\ defaultCallbacks !! c.RA = Some on_right
        /\ on_below item hover ctx
           = [Below item hover (of_Z (levels_below (levels hover)))]
        /\ on_left item hover ctx
           = [LeftOf item hover (of_Z (levels_left (levels hover)))]
        /\ on_right item hover ctx
           = [RightOf item hover (of_Z (levels_right (levels hover)))]).
Proof.
  intros Hrow. split.
  - intros code callback H Hcorner. table_cases H;
      try discriminate Hcorner;
      cbv [on_NO on_AH on_BH on_LH on_RH on_AA on_BA on_LA on_RA on_IL on_IR];
      rewrite ?computeVertical_row, ?computeHorizontal_row by assumption;
      rewrite ?Hrow, ?orb_true_r; reflexivity.
  - exists on_BA, on_LA, on_RA.
    split; [reflexivity|]. split; [reflexivity|]. split; [reflexivity|].
    unfold on_BA, on_LA, on_RA.
    rewrite computeVertical_row, !computeHorizontal_row by assumption.
    auto.
Qed.

Lemma row_dispatch_ignores_pointer_witness :
  on_LA (example_cell "a") (example_row "b") (example_context 3 70)
  = on_LA (example_cell "a") (example_row "b") (example_context 9 1).
Proof.
  exact (proj1 (row_dispatch_ignores_pointer (example_cell "a")
                  (example_row "b") (example_context 3 70)
                  (example_context 9 1) eq_refl)
           c.LA on_LA eq_refl eq_refl).
Defined.

(** What each default interpreter may dispatch: [clear()] or a call on
    the very nodes it was given; and an inline merge only from the inline
    zones, over two nodes that are not rows, an inline-capable dragged
    node and a hovered node that is not inline. *)
Lemma default_callback_shape (code : Z) (callback : Callback) :
  defaultCallbacks !! code = Some callback ->
  forall item hover ctx a,
    In a (callback item hover ctx) ->
    carries item hover a
    /\ (is_inline_action a = true ->
        (code = c.IL \/ code = c.IR)
        /\ isRow item = false /\ isRow hover = false
        /\ item_isInlineable item = true /\ is_inline hover = false).
Proof.
  intros H item hover ctx a. table_cases H;
    cbv [on_NO on_C1 on_C2 on_C3 on_C4 on_AH on_BH on_LH on_RH
         on_AA on_BA on_LA on_RA on_IL on_IR];
    destruct (isRow item), (isRow hover), (is_inline hover),
      (item_isInlineable item); cbn [orb negb];
    repeat match goal with
           | |- context [if ?b then _ else _] => destruct b
           end;
    cbn [In]; intros Hin; first [destruct Hin as [<-|[]] | destruct Hin];
    (split; [cbn; auto|]); intros Hia; cbn in Hia;
    try discriminate Hia; repeat split; auto.
Qed.

Lemma js_get_In {A : Type} (arr : list A) (n : num) (x : A) :
  js_get arr n = Some x -> In x arr.
Proof.
  unfold js_get. destruct (index n) as [i|]; [|discriminate].
  intros H. apply list_elem_of_In. now apply list_elem_of_lookup_2 with i.
Qed.

(** Where the dispatch of a call comes from: nothing, or the interpreter
    registered for a code that stands in the matrix in use. *)
Lemma service_hover_dispatch_source (ms : option (gmap string Matrix))
    (last : gmap string Memo) (drag hover : Node) (actions : Callbacks)
    (room : Room) (mouse : Vector) (name : option string) :
  let svc := newHoverService ms None in
  let r := service_hover svc last drag hover actions room mouse name in
  dispatched r = []
  \/ exists matrix line code callback ctx,
       matrices svc !! default "10x10"%string name = Some matrix
       /\ In line matrix /\ In code line
       /\ defaultCallbacks !! code = Some callback
       /\ dispatched r = callback drag hover ctx.
Proof.
  intros svc r. subst r svc. unfold service_hover.
  destruct (matrices (newHoverService ms None) !! default "10x10"%string name)
    as [matrix|]; [|now left].
  change (callbacks (newHoverService ms None)) with defaultCallbacks.
  unfold computeHover.
  destruct (getRoomScale room matrix) as [scale|]; [|now left].
  cbv zeta.
  destruct (js_get matrix _) as [line|] eqn:Hline; [|now left].
  destruct (js_get line _) as [code|] eqn:Hcode; [|now left].
  destruct (defaultCallbacks !! code) as [cb|] eqn:Hcb; [|now left].
  destruct (deepEquals _ _); [now left|].
  right. exists matrix, line, code, cb. eexists.
  split; [reflexivity|].
  split; [exact (js_get_In _ _ _ Hline)|].
  split; [exact (js_get_In _ _ _ Hcode)|].
  split; [exact Hcb | reflexivity].
Qed.

(** X11.  On a service with the default interpreters [hover] dispatches
    [inlineLeft] or [inlineRight] only when neither node is a row, the
    dragged node's plugin is inline-capable, the hovered node is not
    inline and the matrix in use has an inline zone.  In particular the
    default matrix [10x10-no-inline] never leads to an inline merge. *)
Theorem inline_merge_conditions (ms : option (gmap string Matrix))
    (last : gmap string Memo) (drag hover : Node) (actions : Callbacks)
    (room : Room) (mouse : Vector) (name : option string) :
  let svc := newHoverService ms None in
  let r := service_hover svc last drag hover actions room mouse name in
  (forall a, In a (dispatched r) -> is_inline_action a = true ->
     isRow drag = false /\ isRow hover = false
     /\ item_isInlineable drag = true /\ is_inline hover = false
     /\ exists matrix,
          matrices svc !! default "10x10"%string name = Some matrix
          /\ has_inline_zone matrix = true)
  /\ (ms = None -> name = Some "10x10-no-inline"%string ->
      forall a, In a (dispatched r) -> is_inline_action a = false).
Proof.
  intros svc r.
  assert (Hmain : forall a, In a (dispatched r) -> is_inline_action a = true ->
     isRow drag = false /\ isRow hover = false
     /\ item_isInlineable drag = true /\ is_inline hover = false
     /\ exists matrix,
          matrices svc !! default "10x10"%string name = Some matrix
          /\ has_inline_zone matrix = true).
  { intros a Hin Hia.
    pose proof (service_hover_dispatch_source ms last drag hover actions room
                  mouse name) as H.
    cbv zeta in H. fold svc in H. fold r in H.
    destruct H as [Hnil | (matrix & line & code & cb & ctx & Hm & Hl & Hc & Hcb & Hd)].
    { rewrite Hnil in Hin. destruct Hin. }
    rewrite Hd in Hin.
    destruct (default_callback_shape code cb Hcb drag hover ctx a Hin)
      as [_ Hinl].
    destruct (Hinl Hia) as (Hcode & H1 & H2 & H3 & H4).
    repeat (split; [assumption|]).
    exists matrix. split; [assumption|].
    unfold has_inline_zone. apply existsb_exists. exists line.
    split; [assumption|]. apply existsb_exists. exists code.
    split; [assumption|].
    destruct Hcode as [-> | ->]; reflexivity. }
  split; [exact Hmain|].
  intros -> -> a Hin.
  destruct (is_inline_action a) eqn:Hia; [|reflexivity].
  destruct (Hmain a Hin Hia) as (_ & _ & _ & _ & matrix & Hm & Hz).
  cbn in Hm. injection Hm as <-. discriminate Hz.
Qed.

Lemma inline_merge_conditions_witness :
  let drag := {| node_id := "a"; isRow := false; inline := None;
                 hasInlineNeighbour := None; levels := example_levels;
                 content := inlineable_content |} in
  (isRow drag = false /\ isRow (example_cell "b") = false
   /\ item_isInlineable drag = true /\ is_inline (example_cell "b") = false
   /\ exists matrix,
        matrices (newHoverService None None) !! default "10x10"%string None
        = Some matrix
        /\ has_inline_zone matrix = true)
  /\ is_inline_action (Above drag (example_cell "b") 0%num) = false.
Proof.
  intros drag. split.
  - apply (proj1 (inline_merge_conditions None last0 drag (example_cell "b")
                    0%nat {| width := 100%num; height := 100%num |}
                    {| vec_x := 15%num; vec_y := 15%num |} None)
             (InlineLeft drag (example_cell "b"))).
    + left. reflexivity.
    + reflexivity.
  - apply (proj2 (inline_merge_conditions None last0 drag (example_cell "b")
                    0%nat {| width := 100%num; height := 100%num |}
                    {| vec_x := 15%num; vec_y := 15%num |}
                    (Some "10x10-no-inline"%string)) eq_refl eq_refl).
    left. reflexivity.
Defined.

(** X12.  Whatever [hover] dispatches on a service with the default
    interpreters is [clear()] or a call on the dragged and the hovered
    node of that very call, in this order: the interpreters never swap
    the nodes nor pass another one. *)
Theorem dispatch_carries_call_nodes (ms : option (gmap string Matrix))
    (last : gmap string Memo) (drag hover : Node) (actions : Callbacks)
    (room : Room) (mouse : Vector) (name : option string) :
  let r := service_hover (newHoverService ms None) last drag hover actions
             room mouse name in
  forall a, In a (dispatched r) -> carries drag hover a.
Proof.
  intros r a Hin.
  pose proof (service_hover_dispatch_source ms last drag hover actions room
                mouse name) as H.
  cbv zeta in H. fold r in H.
  destruct H as [Hnil | (matrix & line & code & cb & ctx & _ & _ & _ & Hcb & Hd)].
  - rewrite Hnil in Hin. destruct Hin.
  - rewrite Hd in Hin.
    exact (proj1 (default_callback_shape code cb Hcb drag hover ctx a Hin)).
Qed.

Lemma dispatch_carries_call_nodes_witness :
  carries (example_cell "a") (example_cell "b")
    (LeftOf (example_cell "a") (example_cell "b") 0%num).
Proof.
  apply (dispatch_carries_call_nodes None last0 (example_cell "a")
           (example_cell "b") 0%nat {| width := 100%num; height := 100%num |}
           {| vec_x := 2%num; vec_y := 8%num |} None).
  left. reflexivity.
Defined.

(* ================================================================== *)
(** ** The pointer relative to its cell *)
(* ================================================================== *)

Lemma clamp_in_range (z : Z) (n : nat) :
  (0 <= z < Z.of_nat n)%Z -> clamp (of_Z z) n = of_Z z.
Proof.
  intros Hz. unfold clamp, geb, ltb, of_nat.
  change 0%num with (of_Z 0). rewrite !cmp_of_Z.
  destruct (Z.compare_spec z (Z.of_nat n)); try lia.
  destruct (Z.compare_spec z 0); try lia; reflexivity.
Qed.

(** One coordinate of a pointer inside the room, in the exact arithmetic
    of this model: the clamp leaves the located index as it is, and the
    offset into the cell rounds to a non-negative integer less than the
    cell extent plus one half. *)
Lemma relative_coord (w m : Q) (n : nat) :
  (0 <= m)%Q -> (m < w)%Q -> n <> 0%nat ->
  let d := (Fin w / of_nat n)%num in
  let located := floor (Fin m / d)%num in
  clamp located n = located
  /\ exists k : Z,
       round (Fin m - located * d)%num = of_Z k
       /\ (0 <= k)%Z
       /\ (inject_Z k < w / inject_Z (Z.of_nat n) + (1 # 2)%Q)%Q.
Proof.
  intros Hm0 Hmw Hn d located. subst located d.
  pose proof (inject_Z_of_nat_pos n Hn) as Hpos.
  rewrite (div_fin_of_nat w n Hn).
  set (N := inject_Z (Z.of_nat n)) in *.
  set (d := Qred (w / N)).
  assert (Hd : (d == w / N)%Q) by apply Qred_correct.
  assert (Hdpos : (0 < d)%Q).
  { rewrite Hd. apply Qlt_shift_div_l; [assumption | lra]. }
  assert (HdN : (d * N == w)%Q) by (rewrite Hd; field; lra).
  cbn [div].
  destruct (Qeq_bool d 0) eqn:E1.
  { apply Qeq_bool_eq in E1. exfalso. lra. }
  cbn [floor].
  set (z := Qfloor (Qred (m / d))).
  assert (Hq : (Qred (m / d) == m / d)%Q) by apply Qred_correct.
  assert (Hme : (m == (m / d) * d)%Q) by (field; lra).
  pose proof (Qfloor_le (Qred (m / d))) as Hlo.
  pose proof (Qlt_floor (Qred (m / d))) as Hhi.
  fold z in Hlo, Hhi. rewrite inject_Z_plus in Hhi.
  change (inject_Z 1) with 1%Q in Hhi. rewrite Hq in Hlo, Hhi.
  set (v := (m / d)%Q) in *.
  assert (Hz : (0 <= z < Z.of_nat n)%Z).
  { split.
    - apply Qfloor_nonneg_iff. rewrite Hq. fold v. nra.
    - apply Qfloor_lt_iff. rewrite Hq. fold v N. nra. }
  split; [now apply clamp_in_range|].
  eexists. split; [reflexivity|].
  set (r := Qred (m + Qred (- Qred (inject_Z z * d)))).
  assert (Hr : (r == m - inject_Z z * d)%Q).
  { subst r. rewrite !Qred_correct. ring. }
  split.
  - apply Qfloor_nonneg_iff. rewrite Hr. nra.
  - pose proof (Qfloor_le (r + (1 # 2)%Q)) as Hfl.
    rewrite <- Hd. fold N.
    set (k := inject_Z (Qfloor (r + (1 # 2)%Q))) in *.
    set (zq := inject_Z z) in *.
    nra.
Qed.

(** X10.  For a pointer inside a finite room whose width and height are
    positive and at most [2^32], over a matrix with at least one row and
    one column, the pointer position relative to the cell that
    [computeHover] settles on is a pair of non-negative integers, each
    less than the cell's extent on that axis plus one. *)
Theorem relative_position_in_cell (w h mx my : Q) (matrix : Matrix)
    (line0 : list Z) :
  matrix !! 0%nat = Some line0 -> line0 <> [] ->
  (w <= inject_Z (2 ^ 32))%Q -> (h <= inject_Z (2 ^ 32))%Q ->
  (0 <= mx)%Q -> (mx < w)%Q -> (0 <= my)%Q -> (my < h)%Q ->
  let mouse := {| vec_x := Fin mx; vec_y := Fin my |} in
  exists scale kx ky,
    getRoomScale {| width := Fin w; height := Fin h |} matrix = Some scale
    /\ relativeMousePosition mouse
         (clampedCell mouse scale (length matrix) (length line0)) scale
       = {| vec_x := of_Z kx; vec_y := of_Z ky |}
    /\ (0 <= kx)%Z
    /\ (inject_Z kx < w / inject_Z (Z.of_nat (length line0)) + 1)%Q
    /\ (0 <= ky)%Z
    /\ (inject_Z ky < h / inject_Z (Z.of_nat (length matrix)) + 1)%Q.
Proof.
  intros H0 Hne _ _ Hx0 Hxw Hy0 Hyh mouse.
  assert (Hc : length line0 <> 0%nat) by (destruct line0; [congruence | discriminate]).
  assert (Hr : length matrix <> 0%nat) by (destruct matrix; discriminate).
  destruct (relative_coord w mx (length line0) Hx0 Hxw Hc)
    as (Hcx & kx & Hkx & Hkx0 & Hkxw).
  destruct (relative_coord h my (length matrix) Hy0 Hyh Hr)
    as (Hcy & ky & Hky & Hky0 & Hkyh).
  unfold getRoomScale. rewrite H0.
  eexists. exists kx, ky. split; [reflexivity|].
  unfold clampedCell, getMouseHoverCell, relativeMousePosition.
  cbn [cell row vec_x vec_y width height mouse].
  rewrite Hcx, Hcy, Hkx, Hky.
  split; [reflexivity|]. split; [exact Hkx0|]. split; [lra|].
  split; [exact Hky0 | lra].
Qed.

Lemma relative_position_in_cell_witness :
  exists scale kx ky,
    getRoomScale {| width := Fin 95; height := Fin 40 |} matrix_10x10
      = Some scale
    /\ relativeMousePosition {| vec_x := Fin 94; vec_y := Fin (7 # 2) |}
         (clampedCell {| vec_x := Fin 94; vec_y := Fin (7 # 2) |} scale
            (length matrix_10x10) 10) scale
       = {| vec_x := of_Z kx; vec_y := of_Z ky |}
    /\ (0 <= kx)%Z
    /\ (inject_Z kx < 95 / inject_Z (Z.of_nat 10) + 1)%Q
    /\ (0 <= ky)%Z
    /\ (inject_Z ky < 40 / inject_Z (Z.of_nat (length matrix_10x10)) + 1)%Q.
Proof.
  apply (relative_position_in_cell 95 40 94 (7 # 2) matrix_10x10
           (c.C1 :: repeat c.AA 8 ++ [c.C2]));
    try reflexivity; discriminate.
Defined.

(* ================================================================== *)
(** ** The memo and the pointer *)
(* ================================================================== *)

Lemma deepEquals_mouse (a b : Memo) :
  deepEquals a (Some b) = true ->
  vector_eqb (ctx_mouse (memo_ctx a)) (ctx_mouse (memo_ctx b)) = true.
Proof.
  unfold deepEquals, context_eqb. rewrite !andb_true_iff.
  intros [_ H]. tauto.
Qed.

Lemma eqb_trans_sym (a b d : num) :
  eqb a d = true -> eqb b d = true -> eqb a b = true.
Proof.
  unfold eqb.
  destruct a as [p| | |], b as [q| | |], d as [r| | |]; cbn; try congruence.
  destruct (Qcompare_spec p r), (Qcompare_spec q r), (Qcompare_spec p q);
    try congruence; intros _ _; exfalso; lra.
Qed.

(** X13.  The pointer is part of the memo key.  Of two consecutive
    classified calls under the same matrix name whose pointers differ in
    [x] or in [y], by however little and whether or not they fall in the
    same cell, the second always runs its interpreter. *)
Theorem pointer_move_defeats_memo (svc : HoverService)
    (last : gmap string Memo)
    (drag hover : Node) (actions : Callbacks) (room : Room) (mouse : Vector)
    (drag' hover' : Node) (actions' : Callbacks) (room' : Room)
    (mouse' : Vector) (name : option string) :
  vector_eqb mouse mouse' = false ->
  let r1 := service_hover svc last drag hover actions room mouse name in
  let r2 := service_hover svc (memo r1) drag' hover' actions' room' mouse' name in
  (outcome r1 = Invoked \/ outcome r1 = Suppressed) ->
  (outcome r2 = Invoked \/ outcome r2 = Suppressed) ->
  outcome r2 = Invoked.
Proof.
  intros Hdiff r1 r2 Hreached1 Hreached2.
  set (use := default "10x10"%string name).
  pose proof (service_hover_cases svc last drag hover actions room mouse name)
    as H1.
  cbv zeta in H1. fold r1 use in H1.
  destruct H1 as [([Ho|Ho] & _) | (ctx & cb & Hn & _ & Hm & Heq)];
    [destruct Hreached1; congruence .. |].
  pose proof (service_hover_cases svc (memo r1) drag' hover' actions' room'
                mouse' name) as H2.
  cbv zeta in H2. fold r2 use in H2.
  destruct H2 as [([Ho|Ho] & _) | (ctx' & cb' & Hn' & _ & Hm' & Heq')];
    [destruct Hreached2; congruence .. |].
  pose proof (proj2 (service_hover_slot svc last drag hover actions room mouse
                       name) ctx cb Hn Heq) as Hslot.
  fold r1 use in Hslot.
  subst r2. rewrite (Heq' (memo r1)).
  destruct (deepEquals (key_of drag' hover' actions' ctx') (memo r1 !! use))
    eqn:E; [|reflexivity].
  exfalso.
  destruct (memo r1 !! use) as [k|]; [|discriminate].
  apply deepEquals_mouse in Hslot, E. cbn [memo_ctx key_of] in Hslot, E.
  rewrite Hm in Hslot. rewrite Hm' in E.
  unfold vector_eqb in *. rewrite andb_true_iff in Hslot, E.
  destruct Hslot as [Sx Sy], E as [Ex Ey].
  rewrite (eqb_trans_sym _ _ _ Sx Ex), (eqb_trans_sym _ _ _ Sy Ey) in Hdiff.
  discriminate.
Qed.

Lemma pointer_move_defeats_memo_witness :
  let svc := newHoverService None None in
  let room := {| width := 100%num; height := 100%num |} in
  let r1 := service_hover svc last0 (example_cell "a") (example_cell "b")
              0%nat room {| vec_x := 50%num; vec_y := 15%num |} None in
  let r2 := service_hover svc (memo r1) (example_cell "a") (example_cell "b")
              0%nat room {| vec_x := Fin (101 # 2); vec_y := 15%num |} None in
  outcome r2 = Invoked.
Proof.
  refine (pointer_move_defeats_memo (newHoverService None None) last0
            (example_cell "a") (example_cell "b") 0%nat
            {| width := 100%num; height := 100%num |}
            {| vec_x := 50%num; vec_y := 15%num |}
            (example_cell "a") (example_cell "b") 0%nat
            {| width := 100%num; height := 100%num |}
            {| vec_x := Fin (101 # 2); vec_y := 15%num |} None _ _ _).
  - reflexivity.
  - left. reflexivity.
  - left. reflexivity.
Defined.
